(** * Redux best practices: the documentation module and its examples

    The repository holds one JavaScript file, [reduxBestPractices.js], made
    of comments: prose about Redux conventions and eight illustrative
    examples.  This development

    - carries the text of the file, line by line, and scans it the way a
      JavaScript lexer does (comments, white space, tokens);
    - parses token streams with a recursive-descent parser for the part of
      the ECMAScript module grammar the examples are written in;
    - gives the examples a shallow embedding over a small model of the
      JavaScript run time (primitive values, a heap of objects and arrays,
      a console, completions that are normal or abrupt);
    - states and proves what the file and its examples do. *)

From Stdlib Require Import Ascii String ZArith List Bool Lia.
From stdpp Require Import base option list gmap strings pretty.
Import ListNotations.

Local Open Scope list_scope.

(** ** The text of [reduxBestPractices.js]

    One entry per line, in order; the file has 163 lines and no line
    terminator after the last one. *)

Definition source_lines : list string :=
  [
    "// reduxBestPractices.js";
    EmptyString;
    "/**";
    " * Redux Best Practices";
    " *";
    " * Introduction:";
    " * Redux is a state management library that helps manage application state";
    " * in a predictable way. This document outlines best practices for using";
    " * Redux in your applications to promote maintainability, scalability, and";
    " * ease of testing.";
    " */";
    EmptyString;
    "/**";
    " * State Structure:";
    " * - Flat State Structure: Keep your state tree flat to avoid deep nesting.";
    " *   This simplifies access and updates.";
    " * - Normalization: Use normalized data structures to avoid redundancy.";
    " *   Store entities by ID and create lookup tables for related data.";
    " *";
    " * Example:";
    " * {";
    " *   users: {";
    " *     byId: {";
    " *       '1': { id: '1', name: 'John' },";
    " *       '2': { id: '2', name: 'Jane' },";
    " *     },";
    " *     allIds: ['1', '2'],";
    " *   },";
    " * }";
    " */";
    EmptyString;
    "/**";
    " * Actions:";
    " * - Action Types: Define action types as constants to avoid typos and";
    " *   improve maintainability.";
    " * - Action Creators: Use action creators to encapsulate the creation of";
    " *   actions. This keeps your code DRY.";
    " *";
    " * Example:";
    " * // actionTypes.js";
    " * export const ADD_TODO = 'ADD_TODO';";
    " *";
    " * // actions.js";
    " * export const addTodo = (text) => ({";
    " *   type: ADD_TODO,";
    " *   payload: text,";
    " * });";
    " */";
    EmptyString;
    "/**";
    " * Reducers:";
    " * - Pure Functions: Keep reducers as pure functions. They should not mutate";
    " *   the state directly.";
    " * - Combine Reducers: Use combineReducers to split the root reducer into";
    " *   smaller, manageable pieces.";
    " *";
    " * Example:";
    " * import { combineReducers } from 'redux';";
    " * import todosReducer from './todosReducer';";
    " * import usersReducer from './usersReducer';";
    " *";
    " * const rootReducer = combineReducers({";
    " *   todos: todosReducer,";
    " *   users: usersReducer,";
    " * });";
    " *";
    " * export default rootReducer;";
    " */";
    EmptyString;
    "/**";
    " * Store:";
    " * - Single Store: Use a single Redux store for your application state to";
    " *   maintain a single source of truth.";
    " * - Enhancers: Use enhancers for middleware and store dev tools to improve";
    " *   development experience.";
    " *";
    " * Example:";
    " * import { createStore, applyMiddleware } from 'redux';";
    " * import rootReducer from './reducers';";
    " * import thunk from 'redux-thunk';";
    " *";
    " * const store = createStore(rootReducer, applyMiddleware(thunk));";
    " */";
    EmptyString;
    "/**";
    " * Middleware:";
    " * - Use Middleware: Apply middleware like Redux Thunk or Redux Saga for";
    " *   handling asynchronous actions and side effects.";
    " * - Logging Middleware: Implement logging middleware to monitor actions";
    " *   and state changes during development.";
    " *";
    " * Example:";
    " * const logger = store => next => action => {";
    " *   console.log('Dispatching:', action);";
    " *   return next(action);";
    " * };";
    " */";
    EmptyString;
    "/**";
    " * Connecting Components:";
    " * - Use connect: Utilize react-redux's connect function to connect your";
    " *   components to the Redux store.";
    " * - Map State and Dispatch: Use mapStateToProps and mapDispatchToProps";
    " *   for selecting state and dispatching actions.";
    " *";
    " * Example:";
    " * import { connect } from 'react-redux';";
    " * import { addTodo } from './actions';";
    " *";
    " * const mapStateToProps = (state) => ({";
    " *   todos: state.todos,";
    " * });";
    " *";
    " * const mapDispatchToProps = { addTodo };";
    " *";
    " * export default connect(mapStateToProps, mapDispatchToProps)(MyComponent);";
    " */";
    EmptyString;
    "/**";
    " * Selectors:";
    " * - Create Selectors: Use selectors for accessing state. This encapsulates";
    " *   state access and improves testability.";
    " * - Reselect: Consider using the reselect library for memoized selectors";
    " *   to optimize performance.";
    " *";
    " * Example:";
    " * import { createSelector } from 'reselect';";
    " *";
    " * const getTodos = (state) => state.todos;";
    " *";
    " * export const getVisibleTodos = createSelector(";
    " *   [getTodos],";
    " *   (todos) => todos.filter(todo => !todo.completed)";
    " * );";
    " */";
    EmptyString;
    "/**";
    " * Testing:";
    " * - Test Reducers: Write tests for your reducers to ensure they return";
    " *   the correct state.";
    " * - Test Action Creators: Validate that action creators return the";
    " *   correct actions.";
    " * - Test Components: Use react-testing-library or enzyme for testing";
    " *   connected components.";
    " *";
    " * Example:";
    " * import { addTodo } from './actions';";
    " *";
    " * test('addTodo action creator', () => {";
    " *   const expectedAction = {";
    " *     type: ADD_TODO,";
    " *     payload: 'Learn Redux',";
    " *   };";
    " *   expect(addTodo('Learn Redux')).toEqual(expectedAction);";
    " * });";
    " */";
    EmptyString;
    "/**";
    " * Conclusion:";
    " * Following these best practices will help you create scalable and";
    " * maintainable applications with Redux. Consistently review and update";
    " * your practices as the Redux ecosystem evolves.";
    " */"
  ].

Definition newline : string := String "010"%char EmptyString.

(** The file as one string. *)
Definition source : string := String.concat newline source_lines.

(** ** Scanning lines for comments

    ECMAScript has two kinds of comment: [//] up to the end of the line and
    [/* ... */], which may span lines.  A quote opens a string literal, in
    which neither opens a comment.  (Template and regular-expression
    literals are not scanned for; the file has none outside its comments.) *)

Inductive scan_state : Type :=
| InCode                       (* outside comments and strings *)
| AfterSlash                   (* in code, just after a [/] *)
| InLineComment
| InBlockComment
| AfterStar                    (* in a block comment, just after a [*] *)
| InString (q : ascii)         (* in a string literal opened by [q] *)
| AfterBackslash (q : ascii).  (* in a string, just after a backslash *)

(** What has been seen on the current line. *)
Record line_flags : Type := LineFlags {
  saw_code : bool;     (* a character of code, white space apart *)
  saw_outside : bool;  (* white space outside every comment *)
  saw_comment : bool   (* a character of a comment *)
}.

Definition no_flags : line_flags := LineFlags false false false.
Definition mark_code (f : line_flags) : line_flags :=
  LineFlags true (saw_outside f) (saw_comment f).
Definition mark_outside (f : line_flags) : line_flags :=
  LineFlags (saw_code f) true (saw_comment f).
Definition mark_comment (f : line_flags) : line_flags :=
  LineFlags (saw_code f) (saw_outside f) true.

Definition slash : ascii := "/"%char.
Definition star : ascii := "*"%char.
Definition backslash : ascii := "\"%char.
Definition single_quote : ascii := "'"%char.
Definition double_quote : ascii := "034"%char.

Definition is_quote (c : ascii) : bool :=
  if decide (c = single_quote) then true
  else if decide (c = double_quote) then true else false.

(** One character of code, comment openers apart. *)
Definition scan_code_char (f : line_flags) (c : ascii) : scan_state * line_flags :=
  if decide (c = slash) then (AfterSlash, f)
  else if is_quote c then (InString c, mark_code f)
  else if Ascii.is_space c then (InCode, mark_outside f)
  else (InCode, mark_code f).

Definition scan_char (sf : scan_state * line_flags) (c : ascii)
  : scan_state * line_flags :=
  let '(st, f) := sf in
  match st with
  | InCode => scan_code_char f c
  | AfterSlash =>
      if decide (c = slash) then (InLineComment, mark_comment f)
      else if decide (c = star) then (InBlockComment, mark_comment f)
      else scan_code_char (mark_code f) c
  | InLineComment => (InLineComment, mark_comment f)
  | InBlockComment =>
      (if decide (c = star) then AfterStar else InBlockComment, mark_comment f)
  | AfterStar =>
      (if decide (c = slash) then InCode
       else if decide (c = star) then AfterStar else InBlockComment,
       mark_comment f)
  | InString q =>
      (if decide (c = q) then InCode
       else if decide (c = backslash) then AfterBackslash q else InString q,
       mark_code f)
  | AfterBackslash q => (InString q, mark_code f)
  end.

(** The state a line terminator leaves the scanner in, and whether the
    pending character was code. *)
Definition end_of_line (sf : scan_state * line_flags) : scan_state * line_flags :=
  let '(st, f) := sf in
  match st with
  | InCode | InLineComment => (InCode, f)
  | AfterSlash => (InCode, mark_code f)
  | InBlockComment | AfterStar => (InBlockComment, f)
  | InString _ => (InCode, f)
  | AfterBackslash q => (InString q, f)
  end.

Definition in_block (st : scan_state) : bool :=
  match st with InBlockComment | AfterStar => true | _ => false end.

Inductive line_kind : Type :=
| Inside   (* every character of the line belongs to a comment *)
| Blank    (* no comment on the line, and nothing but white space *)
| Other.   (* anything else: code, or white space next to a comment *)

Definition line_kind_eqb (a b : line_kind) : bool :=
  match a, b with
  | Inside, Inside | Blank, Blank | Other, Other => true
  | _, _ => false
  end.

Definition kind_of (start : scan_state) (f : line_flags) : line_kind :=
  if saw_code f then Other
  else if saw_comment f then (if saw_outside f then Other else Inside)
  else if in_block start then Inside
  else Blank.

(** Scan one line from state [st]: its kind and the state after its line
    terminator. *)
Definition scan_line (st : scan_state) (line : string) : line_kind * scan_state :=
  let '(st', f) := end_of_line (fold_left scan_char (list_ascii_of_string line) (st, no_flags)) in
  (kind_of st f, st').

Fixpoint classify_from (st : scan_state) (lines : list string) : list line_kind :=
  match lines with
  | [] => []
  | line :: rest =>
      let '(k, st') := scan_line st line in
      k :: classify_from st' rest
  end.

Definition classify (lines : list string) : list line_kind :=
  classify_from InCode lines.

(** Line numbers (from 1) of the lines of a given kind. *)
Fixpoint lines_of_kind_from (n : nat) (k : line_kind) (ks : list line_kind) : list nat :=
  match ks with
  | [] => []
  | k' :: rest =>
      (if line_kind_eqb k k' then [n] else []) ++ lines_of_kind_from (S n) k rest
  end.

Definition lines_of_kind (k : line_kind) (ks : list line_kind) : list nat :=
  lines_of_kind_from 1 k ks.

(** ** The examples

    Each example stands in a documentation comment, between a line
    [ * Example:] and the closing [ */], every line behind a [ * ]
    margin. *)

Definition example_mark : string := " * Example:".
Definition comment_end : string := " */".

(** Drop the margin of a comment line. *)
Definition strip_margin (line : string) : string :=
  match line with
  | String " "%char (String "*"%char (String " "%char rest)) => rest
  | String " "%char (String "*"%char rest) => rest
  | _ => line
  end.

(** [cur] holds the lines (last first) of the example being read, if any. *)
Fixpoint examples_from (cur : option (list string)) (lines : list string)
  : list (list string) :=
  match lines with
  | [] => []
  | line :: rest =>
      match cur with
      | None =>
          if String.eqb line example_mark then examples_from (Some []) rest
          else examples_from None rest
      | Some acc =>
          if String.eqb line comment_end then rev acc :: examples_from None rest
          else examples_from (Some (strip_margin line :: acc)) rest
      end
  end.

Definition examples : list string :=
  map (String.concat newline) (examples_from None source_lines).

Definition example (i : nat) : string := nth i examples EmptyString.

Definition state_example : string := example 0.
Definition actions_example : string := example 1.
Definition reducers_example : string := example 2.
Definition store_example : string := example 3.
Definition middleware_example : string := example 4.
Definition connect_example : string := example 5.
Definition selectors_example : string := example 6.
Definition testing_example : string := example 7.

(** ** Tokens *)

Inductive punct : Type :=
| LBrace | RBrace | LParen | RParen | LBracket | RBracket
| Comma | Semi | Colon | Dot | Assign | Arrow | Bang.

Inductive token : Type :=
| TWord (w : string)    (* an identifier name, reserved or not *)
| TString (s : string)  (* a string literal, quotes removed *)
| TPunct (p : punct).

Definition punct_of_char (c : ascii) : option punct :=
  match c with
  | "{" => Some LBrace | "}" => Some RBrace
  | "(" => Some LParen | ")" => Some RParen
  | "[" => Some LBracket | "]" => Some RBracket
  | "," => Some Comma | ";" => Some Semi | ":" => Some Colon
  | "." => Some Dot | "!" => Some Bang
  | _ => None
  end%char.

Definition is_digit (c : ascii) : bool :=
  match Ascii.is_nat c with Some _ => true | None => false end.

Definition is_letter (c : ascii) : bool :=
  let n := nat_of_ascii c in
  (Nat.leb 65 n && Nat.leb n 90) || (Nat.leb 97 n && Nat.leb n 122).

Definition is_word_start (c : ascii) : bool :=
  is_letter c || (if decide (c = "_"%char) then true
                  else if decide (c = "$"%char) then true else false).

Definition is_word_part (c : ascii) : bool := is_word_start c || is_digit c.

Definition is_line_end (c : ascii) : bool :=
  if decide (c = "010"%char) then true
  else if decide (c = "013"%char) then true else false.

Definition word_of (rev_buf : list ascii) : string :=
  string_of_list_ascii (rev rev_buf).

(** ** The lexer

    A state machine over the characters.  It covers what the examples are
    written with: words, quoted strings without escapes, thirteen
    punctuators, comments and white space; on anything else (digits,
    operators, escapes, template literals) it gives up with [None], as it
    does on a comment or string left open. *)

Inductive lex_state : Type :=
| LCode
| LSlash
| LLineComment
| LBlockComment
| LBlockStar
| LWord (rev_buf : list ascii)
| LStr (q : ascii) (rev_buf : list ascii)
| LEquals.

(** The tokens are accumulated last first. *)
Definition lex_code_char (acc : list token) (c : ascii)
  : option (lex_state * list token) :=
  if decide (c = slash) then Some (LSlash, acc)
  else if is_quote c then Some (LStr c [], acc)
  else if Ascii.is_space c then Some (LCode, acc)
  else if is_word_start c then Some (LWord [c], acc)
  else if decide (c = "="%char) then Some (LEquals, acc)
  else match punct_of_char c with
       | Some p => Some (LCode, TPunct p :: acc)
       | None => None
       end.

Definition lex_char (st : lex_state) (acc : list token) (c : ascii)
  : option (lex_state * list token) :=
  match st with
  | LCode => lex_code_char acc c
  | LSlash =>
      if decide (c = slash) then Some (LLineComment, acc)
      else if decide (c = star) then Some (LBlockComment, acc)
      else None
  | LLineComment => Some (if is_line_end c then LCode else LLineComment, acc)
  | LBlockComment => Some (if decide (c = star) then LBlockStar else LBlockComment, acc)
  | LBlockStar =>
      Some (if decide (c = slash) then LCode
            else if decide (c = star) then LBlockStar else LBlockComment, acc)
  | LWord buf =>
      if is_word_part c then Some (LWord (c :: buf), acc)
      else lex_code_char (TWord (word_of buf) :: acc) c
  | LStr q buf =>
      if decide (c = q) then Some (LCode, TString (word_of buf) :: acc)
      else if decide (c = backslash) then None
      else if is_line_end c then None
      else Some (LStr q (c :: buf), acc)
  | LEquals =>
      if decide (c = ">"%char) then Some (LCode, TPunct Arrow :: acc)
      else if decide (c = "="%char) then None
      else lex_code_char (TPunct Assign :: acc) c
  end.

Definition lex_end (st : lex_state) (acc : list token) : option (list token) :=
  match st with
  | LCode | LLineComment => Some (rev acc)
  | LWord buf => Some (rev (TWord (word_of buf) :: acc))
  | LEquals => Some (rev (TPunct Assign :: acc))
  | LSlash | LBlockComment | LBlockStar | LStr _ _ => None
  end.

Fixpoint lex_from (st : lex_state) (acc : list token) (cs : list ascii)
  : option (list token) :=
  match cs with
  | [] => lex_end st acc
  | c :: rest =>
      match lex_char st acc c with
      | Some (st', acc') => lex_from st' acc' rest
      | None => None
      end
  end.

Definition lex (text : string) : option (list token) :=
  lex_from LCode [] (list_ascii_of_string text).

(** ** Syntax trees

    The part of the ECMAScript module grammar the examples use. *)

#[local] Set Warnings "-register-all".

Inductive expr : Type :=
| EIdent (x : string)
| EStr (s : string)
| EObject (props : list (string * expr))
| EArray (elems : list expr)
| EArrow (params : list string) (body : arrow_body)
| ECall (f : expr) (args : list expr)
| EMember (obj : expr) (prop : string)
| ENot (e : expr)
with arrow_body : Type :=
| BExpr (e : expr)
| BBlock (body : list stmt)
with stmt : Type :=
| SConst (x : string) (init : expr)
| SReturn (e : expr)
| SExpr (e : expr)
| SBlock (body : list stmt)
| SLabelled (label : string) (s : stmt).

Inductive module_item : Type :=
| IImportDefault (x : string) (from : string)
| IImportNamed (xs : list string) (from : string)
| IExportConst (x : string) (init : expr)
| IExportDefault (e : expr)
| IStmt (s : stmt).

(** The names an item binds at the top level of its module, and the names
    it exports. *)
Definition item_bindings (it : module_item) : list string :=
  match it with
  | IImportDefault x _ => [x]
  | IImportNamed xs _ => xs
  | IExportConst x _ => [x]
  | IStmt (SConst x _) => [x]
  | IExportDefault _ | IStmt _ => []
  end.

Definition item_exports (it : module_item) : list string :=
  match it with
  | IExportConst x _ => [x]
  | IExportDefault _ => ["default"]
  | _ => []
  end.

Definition bindings (items : list module_item) : list string :=
  concat (map item_bindings items).

Definition exports (items : list module_item) : list string :=
  concat (map item_exports items).

(** ** The parser *)

(** Words that are no identifiers (ECMAScript reserved words, with the
    literals and the words reserved in modules and strict code). *)
Definition reserved_words : list string :=
  ["await"; "break"; "case"; "catch"; "class"; "const"; "continue";
   "debugger"; "default"; "delete"; "do"; "else"; "enum"; "export";
   "extends"; "false"; "finally"; "for"; "function"; "if"; "import"; "in";
   "instanceof"; "new"; "null"; "return"; "super"; "switch"; "this";
   "throw"; "true"; "try"; "typeof"; "var"; "void"; "while"; "with";
   "yield"; "let"; "static"; "implements"; "interface"; "package";
   "private"; "protected"; "public"].

Definition is_identifier (w : string) : bool :=
  negb (existsb (String.eqb w) reserved_words).

Inductive presult (A : Type) : Type :=
| Parsed (a : A) (rest : list token)   (* a phrase, and the tokens after it *)
| SyntaxError (here : list token)      (* no phrase: the tokens not accepted *)
| OutOfFuel.

Arguments Parsed {A} a rest.
Arguments SyntaxError {A} here.
Arguments OutOfFuel {A}.

Definition pbind {A B : Type} (r : presult A) (k : A -> list token -> presult B)
  : presult B :=
  match r with
  | Parsed a rest => k a rest
  | SyntaxError here => SyntaxError here
  | OutOfFuel => OutOfFuel
  end.

Definition pmap {A B : Type} (f : A -> B) (r : presult A) : presult B :=
  pbind r (fun a rest => Parsed (f a) rest).

Definition punct_eqb (p q : punct) : bool :=
  match p, q with
  | LBrace, LBrace | RBrace, RBrace | LParen, LParen | RParen, RParen
  | LBracket, LBracket | RBracket, RBracket | Comma, Comma | Semi, Semi
  | Colon, Colon | Dot, Dot | Assign, Assign | Arrow, Arrow | Bang, Bang => true
  | _, _ => false
  end.

(** The punctuator [p], then [k] on what follows. *)
Definition expect {A : Type} (p : punct) (ts : list token)
  (k : list token -> presult A) : presult A :=
  match ts with
  | TPunct q :: rest => if punct_eqb p q then k rest else SyntaxError ts
  | _ => SyntaxError ts
  end.

(** After an opening parenthesis: the parameters of an arrow function, up
    to and with the arrow, when that is what follows. *)
Fixpoint arrow_params (ts : list token) : option (list string * list token) :=
  match ts with
  | TPunct RParen :: TPunct Arrow :: rest => Some ([], rest)
  | TWord x :: rest =>
      if is_identifier x then
        match rest with
        | TPunct RParen :: TPunct Arrow :: rest' => Some ([x], rest')
        | TPunct Comma :: rest' =>
            match arrow_params rest' with
            | Some (xs, rest'') => Some (x :: xs, rest'')
            | None => None
            end
        | _ => None
        end
      else None
  | _ => None
  end.

(** After the brace of an import clause: the imported names, up to and
    with the closing brace. *)
Fixpoint import_names (ts : list token) : presult (list string) :=
  match ts with
  | TPunct RBrace :: rest => Parsed [] rest
  | TWord x :: rest =>
      if is_identifier x then
        match rest with
        | TPunct RBrace :: rest' => Parsed [x] rest'
        | TPunct Comma :: rest' => pmap (cons x) (import_names rest')
        | _ => SyntaxError rest
        end
      else SyntaxError ts
  | _ => SyntaxError ts
  end.

(** The phrases that nest, by recursive descent.  Each call spends one unit
    of fuel; [in_fn] tells whether a [return] is allowed. *)
Fixpoint parse_assign (n : nat) (ts : list token) : presult expr :=
  match n with
  | 0 => OutOfFuel
  | S n =>
      match ts with
      | TWord x :: TPunct Arrow :: rest =>
          if is_identifier x
          then pmap (EArrow [x]) (parse_arrow_body n rest)
          else SyntaxError ts
      | TPunct LParen :: rest =>
          match arrow_params rest with
          | Some (xs, rest') => pmap (EArrow xs) (parse_arrow_body n rest')
          | None => parse_unary n ts
          end
      | _ => parse_unary n ts
      end
  end

with parse_arrow_body (n : nat) (ts : list token) : presult arrow_body :=
  match n with
  | 0 => OutOfFuel
  | S n =>
      match ts with
      | TPunct LBrace :: rest => pmap BBlock (parse_stmts n true rest)
      | _ => pmap BExpr (parse_assign n ts)
      end
  end

with parse_unary (n : nat) (ts : list token) : presult expr :=
  match n with
  | 0 => OutOfFuel
  | S n =>
      match ts with
      | TPunct Bang :: rest => pmap ENot (parse_unary n rest)
      | _ => pbind (parse_primary n ts) (parse_postfix n)
      end
  end

with parse_primary (n : nat) (ts : list token) : presult expr :=
  match n with
  | 0 => OutOfFuel
  | S n =>
      match ts with
      | TWord x :: rest =>
          if is_identifier x then Parsed (EIdent x) rest else SyntaxError ts
      | TString s :: rest => Parsed (EStr s) rest
      | TPunct LParen :: rest =>
          pbind (parse_assign n rest) (fun e rest' =>
          expect RParen rest' (Parsed e))
      | TPunct LBrace :: rest => pmap EObject (parse_props n rest)
      | TPunct LBracket :: rest => pmap EArray (parse_list n RBracket rest)
      | _ => SyntaxError ts
      end
  end

(* member accesses and calls after the expression [e] *)
with parse_postfix (n : nat) (e : expr) (ts : list token) : presult expr :=
  match n with
  | 0 => OutOfFuel
  | S n =>
      match ts with
      | TPunct Dot :: TWord p :: rest => parse_postfix n (EMember e p) rest
      | TPunct Dot :: rest => SyntaxError rest
      | TPunct LParen :: rest =>
          pbind (parse_list n RParen rest) (fun args =>
          parse_postfix n (ECall e args))
      | _ => Parsed e ts
      end
  end

(* expressions between commas, up to and with [close]; a last comma may
   stand before [close] *)
with parse_list (n : nat) (close : punct) (ts : list token) : presult (list expr) :=
  match n with
  | 0 => OutOfFuel
  | S n =>
      match ts with
      | TPunct p :: rest =>
          if punct_eqb p close then Parsed [] rest else parse_list_item n close ts
      | _ => parse_list_item n close ts
      end
  end

with parse_list_item (n : nat) (close : punct) (ts : list token) : presult (list expr) :=
  match n with
  | 0 => OutOfFuel
  | S n =>
      pbind (parse_assign n ts) (fun e rest =>
      match rest with
      | TPunct Comma :: rest' => pmap (cons e) (parse_list n close rest')
      | TPunct p :: rest' =>
          if punct_eqb p close then Parsed [e] rest' else SyntaxError rest
      | _ => SyntaxError rest
      end)
  end

(* the properties of an object literal, after its brace and up to and with
   the closing one *)
with parse_props (n : nat) (ts : list token) : presult (list (string * expr)) :=
  match n with
  | 0 => OutOfFuel
  | S n =>
      match ts with
      | TPunct RBrace :: rest => Parsed [] rest
      | TWord k :: TPunct Colon :: rest
      | TString k :: TPunct Colon :: rest =>
          pbind (parse_assign n rest) (fun v => parse_props_more n (k, v))
      | TWord k :: rest =>
          if is_identifier k then parse_props_more n (k, EIdent k) rest
          else SyntaxError ts
      | _ => SyntaxError ts
      end
  end

with parse_props_more (n : nat) (kv : string * expr) (ts : list token)
  : presult (list (string * expr)) :=
  match n with
  | 0 => OutOfFuel
  | S n =>
      match ts with
      | TPunct Comma :: rest => pmap (cons kv) (parse_props n rest)
      | TPunct RBrace :: rest => Parsed [kv] rest
      | _ => SyntaxError ts
      end
  end

(* a statement; a declaration is none, so that no label stands before one *)
with parse_stmt (n : nat) (in_fn : bool) (ts : list token) : presult stmt :=
  match n with
  | 0 => OutOfFuel
  | S n =>
      match ts with
      | TPunct LBrace :: rest => pmap SBlock (parse_stmts n in_fn rest)
      | TWord w :: rest =>
          if String.eqb w "return" then
            if in_fn then
              pbind (parse_assign n rest) (fun e rest' =>
              expect Semi rest' (Parsed (SReturn e)))
            else SyntaxError ts
          else
            match rest with
            | TPunct Colon :: rest' =>
                if is_identifier w
                then pmap (SLabelled w) (parse_stmt n in_fn rest')
                else SyntaxError ts
            | _ =>
                pbind (parse_assign n ts) (fun e rest' =>
                expect Semi rest' (Parsed (SExpr e)))
            end
      | _ =>
          pbind (parse_assign n ts) (fun e rest =>
          expect Semi rest (Parsed (SExpr e)))
      end
  end

(* an item of a statement list: a [const] declaration or a statement *)
with parse_stmt_item (n : nat) (in_fn : bool) (ts : list token) : presult stmt :=
  match n with
  | 0 => OutOfFuel
  | S n =>
      match ts with
      | TWord w :: rest =>
          if String.eqb w "const" then
            match rest with
            | TWord x :: TPunct Assign :: rest' =>
                if is_identifier x then
                  pbind (parse_assign n rest') (fun e rest'' =>
                  expect Semi rest'' (Parsed (SConst x e)))
                else SyntaxError rest
            | _ => SyntaxError rest
            end
          else parse_stmt n in_fn ts
      | _ => parse_stmt n in_fn ts
      end
  end

(* the statements of a block, after its brace and up to and with the
   closing one *)
with parse_stmts (n : nat) (in_fn : bool) (ts : list token) : presult (list stmt) :=
  match n with
  | 0 => OutOfFuel
  | S n =>
      match ts with
      | TPunct RBrace :: rest => Parsed [] rest
      | _ =>
          pbind (parse_stmt_item n in_fn ts) (fun s rest =>
          pmap (cons s) (parse_stmts n in_fn rest))
      end
  end.

(** A module item: an import or export declaration, or a statement. *)
Definition parse_import (ts : list token) : presult module_item :=
  match ts with
  | TWord x :: TWord f :: TString m :: TPunct Semi :: rest =>
      if is_identifier x && String.eqb f "from"
      then Parsed (IImportDefault x m) rest
      else SyntaxError ts
  | TPunct LBrace :: rest =>
      pbind (import_names rest) (fun xs rest' =>
      match rest' with
      | TWord f :: TString m :: TPunct Semi :: rest'' =>
          if String.eqb f "from" then Parsed (IImportNamed xs m) rest''
          else SyntaxError rest'
      | _ => SyntaxError rest'
      end)
  | _ => SyntaxError ts
  end.

Definition parse_export (n : nat) (ts : list token) : presult module_item :=
  match ts with
  | TWord w :: rest =>
      if String.eqb w "const" then
        match rest with
        | TWord x :: TPunct Assign :: rest' =>
            if is_identifier x then
              pbind (parse_assign n rest') (fun e rest'' =>
              expect Semi rest'' (Parsed (IExportConst x e)))
            else SyntaxError rest
        | _ => SyntaxError rest
        end
      else if String.eqb w "default" then
        pbind (parse_assign n rest) (fun e rest' =>
        expect Semi rest' (Parsed (IExportDefault e)))
      else SyntaxError ts
  | _ => SyntaxError ts
  end.

Definition parse_item (n : nat) (ts : list token) : presult module_item :=
  match ts with
  | TWord w :: rest =>
      if String.eqb w "import" then parse_import rest
      else if String.eqb w "export" then parse_export n rest
      else pmap IStmt (parse_stmt_item n false ts)
  | _ => pmap IStmt (parse_stmt_item n false ts)
  end.

(** A module: items up to the end of the tokens. *)
Fixpoint parse_items (n : nat) (ts : list token) : presult (list module_item) :=
  match n with
  | 0 => OutOfFuel
  | S n =>
      match ts with
      | [] => Parsed [] []
      | _ =>
          pbind (parse_item n ts) (fun it rest =>
          pmap (cons it) (parse_items n rest))
      end
  end.

(** Fuel that is enough for the texts at hand; more fuel never changes a
    result other than [OutOfFuel] (see [parse_items_more_fuel]). *)
Definition fuel_of (ts : list token) : nat := 8 * S (length ts).

Definition parse_module (text : string) : presult (list module_item) :=
  match lex text with
  | Some ts => parse_items (fuel_of ts) ts
  | None => SyntaxError []
  end.

Definition parse_expression (text : string) : presult expr :=
  match lex text with
  | Some ts => parse_assign (fuel_of ts) ts
  | None => SyntaxError []
  end.

(** [text] is a module, or an expression, of the grammar. *)
Definition valid_module (text : string) : Prop :=
  exists ts n items, lex text = Some ts /\ parse_items n ts = Parsed items [].

Definition valid_expression (text : string) : Prop :=
  exists ts n e, lex text = Some ts /\ parse_assign n ts = Parsed e [].

(** The module the file is. *)
Definition program : presult (list module_item) := parse_module source.

(** ** A model of the JavaScript run time

    Primitive values and references to the objects of a heap.  Functions
    are not values of the model: the functions of the examples are Rocq
    functions, and a method call such as [todos.filter(f)] is the
    operation [array_filter]. *)

(** Locations of the heap. *)
Abbreviation loc := positive (only parsing).

Inductive value : Type :=
| VUndefined
| VNull
| VBool (b : bool)
| VNum (n : Z)       (* the numbers that are integers *)
| VNaN
| VStr (s : string)
| VRef (l : loc).

Global Instance value_eq_dec : EqDecision value.
Proof. solve_decision. Defined.

(** An object holds its own properties in the order they were added; an
    array holds its elements (no holes). *)
Inductive object : Type :=
| OObject (props : list (string * value))
| OArray (elems : list value).

Inductive error : Type :=
| TypeError
| SyntaxErr
| JestAssertionError
| ReferenceError
| NoSuchObject.  (* a reference to no object: JavaScript has none, the model
                    needs an answer *)

Global Instance error_eq_dec : EqDecision error.
Proof. solve_decision. Defined.

Inductive completion (A : Type) : Type :=
| Normal (a : A)
| Throw (e : error).

Arguments Normal {A} a.
Arguments Throw {A} e.

Global Instance completion_eq_dec {A : Type} `{EqDecision A} :
  EqDecision (completion A).
Proof. solve_decision. Defined.

(** What a computation comes to: how it completes, the heap it leaves, and
    what it wrote to the console (the arguments of each [console.log], in
    order).  A program writes to the console and cannot read it back. *)
Record outcome (A : Type) : Type := Outcome {
  result : completion A;
  final : gmap loc object;
  printed : list (list value)
}.

Arguments Outcome {A} result final printed.
Arguments result {A} o.
Arguments final {A} o.
Arguments printed {A} o.

(** Computations, from the heap they start in. *)
Definition JS (A : Type) : Type := gmap loc object -> outcome A.

Definition ret {A : Type} (a : A) : JS A := fun h => Outcome (Normal a) h [].

Definition throw {A : Type} (e : error) : JS A := fun h => Outcome (Throw e) h [].

Definition bind {A B : Type} (m : JS A) (k : A -> JS B) : JS B :=
  fun h =>
    let o := m h in
    match result o with
    | Normal a =>
        let o' := k a (final o) in
        Outcome (result o') (final o') (printed o ++ printed o')
    | Throw e => Outcome (Throw e) (final o) (printed o)
    end.

Notation "x <- m ;; k" := (bind m (fun x => k))
  (at level 100, m at next level, right associativity).
Notation "m ;;; k" := (bind m (fun _ => k))
  (at level 100, right associativity).

(** A computation that only looks at the heap. *)
Definition reading {A : Type} (f : gmap loc object -> completion A) : JS A :=
  fun h => Outcome (f h) h [].

(** *** Reading properties *)

Fixpoint assoc (k : string) (props : list (string * value)) : option value :=
  match props with
  | [] => None
  | (k', v) :: rest => if String.eqb k k' then Some v else assoc k rest
  end.

Fixpoint digits_value (acc : nat) (cs : list ascii) : option nat :=
  match cs with
  | [] => Some acc
  | c :: rest =>
      match Ascii.is_nat c with
      | Some d => digits_value (10 * acc + d) rest
      | None => None
      end
  end.

(** The index a property key denotes, if it is the decimal form of one. *)
Definition array_index (k : string) : option nat :=
  match list_ascii_of_string k with
  | [] => None
  | c :: rest =>
      if decide (c = "0"%char)
      then (match rest with [] => Some 0 | _ => None end)
      else digits_value 0 (c :: rest)
  end.

Definition array_prop (elems : list value) (k : string) : value :=
  if String.eqb k "length" then VNum (Z.of_nat (length elems))
  else match array_index k with
       | Some i => default VUndefined (elems !! i)
       | None => VUndefined
       end.

Definition string_prop (s : string) (k : string) : value :=
  if String.eqb k "length" then VNum (Z.of_nat (String.length s))
  else match array_index k with
       | Some i =>
           match String.get i s with
           | Some c => VStr (String c EmptyString)
           | None => VUndefined
           end
       | None => VUndefined
       end.

(** [v.k] in heap [h].  Reading a property of [undefined] or [null] is a
    [TypeError]; a property an object does not have reads as [undefined].
    What prototypes supply (methods, [constructor]) is left out: the
    examples read [todos], [completed] and the fields of their own
    literals. *)
Definition read_prop (h : gmap loc object) (v : value) (k : string)
  : completion value :=
  match v with
  | VUndefined | VNull => Throw TypeError
  | VBool _ | VNum _ | VNaN => Normal VUndefined
  | VStr s => Normal (string_prop s k)
  | VRef l =>
      match h !! l with
      | Some (OObject props) => Normal (default VUndefined (assoc k props))
      | Some (OArray elems) => Normal (array_prop elems k)
      | None => Throw NoSuchObject
      end
  end.

Definition get_prop (v : value) (k : string) : JS value :=
  reading (fun h => read_prop h v k).

(** [ToBoolean]. *)
Definition to_boolean (v : value) : bool :=
  match v with
  | VUndefined | VNull | VNaN => false
  | VBool b => b
  | VNum n => negb (Z.eqb n 0)
  | VStr s => negb (String.eqb s EmptyString)
  | VRef _ => true
  end.

(** *** Creating objects, writing to the console *)

Definition fresh_loc (h : gmap loc object) : loc := fresh (dom h).

Definition alloc (o : object) : JS value :=
  fun h =>
    let l := fresh_loc h in
    Outcome (Normal (VRef l)) (<[l := o]> h) [].

Definition console_log (args : list value) : JS unit :=
  fun h => Outcome (Normal tt) h [args].

(** *** Built-in operations the examples call *)

(** The loop of [Array.prototype.filter] over the array at [l]: [count]
    more indices from [k] on.  Each element is read when the loop reaches
    it (an index the array no longer has is passed over), the callback is
    called on it, and it is kept when the answer is truthy. *)
Fixpoint filter_loop (cb : value -> JS value) (l : loc) (k count : nat)
  (kept_rev : list value) : JS (list value) :=
  match count with
  | 0 => ret (rev kept_rev)
  | S count' =>
      fun h =>
        match h !! l with
        | Some (OArray elems) =>
            match elems !! k with
            | Some x =>
                (keep <- cb x ;;
                 filter_loop cb l (S k) count'
                   (if to_boolean keep then x :: kept_rev else kept_rev)) h
            | None => filter_loop cb l (S k) count' kept_rev h
            end
        | _ => filter_loop cb l (S k) count' kept_rev h
        end
  end.

(** [arr.filter(cb)]: a new array of the elements of [arr] that [cb] keeps.
    On anything but an array there is no method [filter] to call. *)
Definition array_filter (arr : value) (cb : value -> JS value) : JS value :=
  fun h =>
    match arr with
    | VRef l =>
        match h !! l with
        | Some (OArray elems) =>
            (kept <- filter_loop cb l 0 (length elems) [] ;;
             alloc (OArray kept)) h
        | Some (OObject _) => throw TypeError h
        | None => throw NoSuchObject h
        end
    | _ => throw TypeError h
    end.

(** The own keys of an object in the order [Object.keys] lists them:
    index keys first, ascending, then the others as they were added. *)
Fixpoint insert_by_index (ik : nat * string) (sorted : list (nat * string))
  : list (nat * string) :=
  match sorted with
  | [] => [ik]
  | jk :: rest =>
      if Nat.leb (fst ik) (fst jk) then ik :: sorted
      else jk :: insert_by_index ik rest
  end.

Definition index_keys (keys : list string) : list (nat * string) :=
  omap (fun k => match array_index k with Some i => Some (i, k) | None => None end) keys.

Definition own_keys (props : list (string * value)) : list string :=
  let keys := map fst props in
  map snd (foldr insert_by_index [] (index_keys keys))
  ++ List.filter (fun k => match array_index k with None => true | Some _ => false end) keys.

Definition keys_of (h : gmap loc object) (v : value) : completion (list string) :=
  match v with
  | VUndefined | VNull => Throw TypeError
  | VBool _ | VNum _ | VNaN => Normal []
  | VStr s => Normal (map pretty (seq 0 (String.length s)))
  | VRef l =>
      match h !! l with
      | Some (OObject props) => Normal (own_keys props)
      | Some (OArray elems) => Normal (map pretty (seq 0 (length elems)))
      | None => Throw NoSuchObject
      end
  end.

(** [Object.keys(v)]. *)
Definition object_keys (v : value) : JS (list string) :=
  reading (fun h => keys_of h v).

(** The recursive equality of Jest's [toEqual], to a nesting depth: same
    primitive, or same object, or two objects (two arrays) whose
    properties (elements) are equal in turn, a property that is missing
    counting as [undefined]. *)
Fixpoint to_equal (depth : nat) (h : gmap loc object) (a b : value) : bool :=
  match a, b with
  | VRef la, VRef lb =>
      if decide (la = lb) then true
      else
        match depth with
        | 0 => false
        | S d =>
            match h !! la, h !! lb with
            | Some (OObject pa), Some (OObject pb) =>
                forallb
                  (fun k => to_equal d h (default VUndefined (assoc k pa))
                                         (default VUndefined (assoc k pb)))
                  (map fst pa ++ map fst pb)
            | Some (OArray ea), Some (OArray eb) =>
                Nat.eqb (length ea) (length eb)
                && forallb (fun xy => to_equal d h (fst xy) (snd xy)) (combine ea eb)
            | _, _ => false
            end
        end
  | _, _ => bool_decide (a = b)
  end.

(** [expect(actual).toEqual(expected)]: nothing when the two are equal, an
    error when not.  No chain of distinct objects is longer than the heap
    has objects. *)
Definition expect_toEqual (actual expected : value) : JS unit :=
  reading (fun h =>
    if to_equal (S (size h)) h actual expected
    then Normal tt
    else Throw JestAssertionError).

(** Call each function of [fs] on [x], in order. *)
Fixpoint call_each {A B : Type} (fs : list (A -> JS B)) (x : A) : JS (list B) :=
  match fs with
  | [] => ret []
  | f :: rest => y <- f x ;; ys <- call_each rest x ;; ret (y :: ys)
  end.

(** [createSelector] of reselect, its cache left out: the selector calls
    the input selectors on the state and the result function on what they
    return. *)
Definition createSelector (inputs : list (value -> JS value))
  (result_fn : list value -> JS value) : value -> JS value :=
  fun state => args <- call_each inputs state ;; result_fn args.

(** ** The examples, embedded *)

(** Actions. *)
Definition ADD_TODO : string := "ADD_TODO".

Definition addTodo (text : value) : JS value :=
  alloc (OObject [("type", VStr ADD_TODO); ("payload", text)]).

(** Middleware. *)
Definition logger (store : value) (next : value -> JS value) (action : value)
  : JS value :=
  console_log [VStr "Dispatching:"; action] ;;;
  next action.

(** Selectors.  [is_visible] is the callback [todo => !todo.completed]. *)
Definition getTodos (state : value) : JS value := get_prop state "todos".

Definition is_visible (todo : value) : JS value :=
  completed <- get_prop todo "completed" ;;
  ret (VBool (negb (to_boolean completed))).

Definition getVisibleTodos : value -> JS value :=
  createSelector [getTodos]
    (fun args => array_filter (nth 0 args VUndefined) is_visible).

(** Reading a name of the module scope: its value where something binds
    it (an import, a declaration), a [ReferenceError] where nothing
    does. *)
Definition read_name (binding : option value) : JS value :=
  match binding with
  | Some v => ret v
  | None => throw ReferenceError
  end.

(** Testing: the body of the test of [addTodo].  It reads the name
    [ADD_TODO] when it builds the expected action; the example imports
    [addTodo] alone, so what [ADD_TODO] is bound to in the module of the
    test, if anything, is the parameter [add_todo_type]. *)
Definition addTodo_test (add_todo_type : option value) : JS unit :=
  type <- read_name add_todo_type ;;
  expectedAction <- alloc (OObject [("type", type);
                                    ("payload", VStr "Learn Redux")]) ;;
  actual <- addTodo (VStr "Learn Redux") ;;
  expect_toEqual actual expectedAction.

(** State structure: the object literal, the inner objects built before
    the ones that hold them. *)
Definition normalized_state : JS value :=
  john <- alloc (OObject [("id", VStr "1"); ("name", VStr "John")]) ;;
  jane <- alloc (OObject [("id", VStr "2"); ("name", VStr "Jane")]) ;;
  byId <- alloc (OObject [("1", john); ("2", jane)]) ;;
  allIds <- alloc (OArray [VStr "1"; VStr "2"]) ;;
  users <- alloc (OObject [("byId", byId); ("allIds", allIds)]) ;;
  alloc (OObject [("users", users)]).

(** ** Evaluating a module

    The items run in order, up to the first that throws; a text that is no
    module throws a syntax error before anything runs.  What an item does
    is a parameter. *)

Section Evaluation.

Variable exec_item : module_item -> JS unit.

Fixpoint run_items (items : list module_item) : JS unit :=
  match items with
  | [] => ret tt
  | it :: rest => exec_item it ;;; run_items rest
  end.

Definition run_module (text : string) : JS unit :=
  match parse_module text with
  | Parsed items [] => run_items items
  | _ => throw SyntaxErr
  end.

End Evaluation.

(** The paragraphs of a text: its lines, split at the empty ones. *)
Fixpoint paragraphs_from (cur : list string) (lines : list string)
  : list (list string) :=
  match lines with
  | [] => match cur with [] => [] | _ => [rev cur] end
  | line :: rest =>
      if String.eqb line EmptyString
      then match cur with
           | [] => paragraphs_from [] rest
           | _ => rev cur :: paragraphs_from [] rest
           end
      else paragraphs_from (line :: cur) rest
  end.

Definition blocks : list string :=
  map (String.concat newline) (paragraphs_from [] source_lines).

(** ** Notions the statements use *)

(** A parse all of whose tokens were used. *)
Definition is_parsed {A : Type} (r : presult A) : bool :=
  match r with
  | Parsed _ [] => true
  | _ => false
  end.

(** No name is bound twice at the top level of the module, none is
    exported twice. *)
Definition distinct_names (items : list module_item) : bool :=
  bool_decide (NoDup (bindings items)) && bool_decide (NoDup (exports items)).

(** [r'] is the result [r], or [r] ran out of fuel. *)
Definition settled {A : Type} (r r' : presult A) : Prop :=
  r = OutOfFuel \/ r = r'.

(** The [completed] field of [x] is falsy: [false], [undefined] (also when
    [x] has no such field), [null], [0], [NaN] or the empty string. *)
Definition completed_falsy (h : gmap loc object) (x : value) : bool :=
  match read_prop h x "completed" with
  | Normal c => negb (to_boolean c)
  | Throw _ => false
  end.

(** The [completed] field of [x] is [false]. *)
Definition completed_false (h : gmap loc object) (x : value) : bool :=
  bool_decide (read_prop h x "completed" = Normal (VBool false)).

(** The [completed] field of [x] can be read: [x] is not [undefined] or
    [null]. *)
Definition has_completed (h : gmap loc object) (x : value) : Prop :=
  exists c, read_prop h x "completed" = Normal c.

(** What the loop of [filter] comes to with the callback [is_visible],
    which changes nothing: a fold over the elements. *)
Fixpoint visible_fold (h : gmap loc object) (xs kept_rev : list value)
  : completion (list value) :=
  match xs with
  | [] => Normal (rev kept_rev)
  | x :: rest =>
      match read_prop h x "completed" with
      | Normal c =>
          visible_fold h rest
            (if to_boolean (VBool (negb (to_boolean c)))
             then x :: kept_rev else kept_rev)
      | Throw e => Throw e
      end
  end.

(** A heap for examples: a todo without a [completed] field, one that is
    completed, one that is not; arrays of them; states that hold the
    arrays. *)
Definition sample_heap : gmap loc object :=
  list_to_map
    [(1%positive, OObject [("text", VStr "Learn Redux")]);
     (2%positive, OObject [("text", VStr "Read the docs"); ("completed", VBool true)]);
     (3%positive, OObject [("text", VStr "Ship"); ("completed", VBool false)]);
     (4%positive, OArray [VRef 1%positive]);
     (5%positive, OObject [("todos", VRef 4%positive)]);
     (6%positive, OArray [VRef 2%positive; VRef 3%positive]);
     (7%positive, OObject [("todos", VRef 6%positive)]);
     (8%positive, OObject [("todos", VRef 6%positive); ("filter", VStr "all")])].

(** A heap whose state has the normalized shape and breaks its rule:
    [allIds] names an id that [byId] lacks, and the record under ['1'] has
    another [id]. *)
Definition broken_heap : gmap loc object :=
  list_to_map
    [(1%positive, OObject [("id", VStr "2"); ("name", VStr "John")]);
     (2%positive, OObject [("1", VRef 1%positive)]);
     (3%positive, OArray [VStr "1"; VStr "3"]);
     (4%positive, OObject [("byId", VRef 2%positive); ("allIds", VRef 3%positive)]);
     (5%positive, OObject [("users", VRef 4%positive)])].

(** A [next] for examples: it writes a line of its own and returns the
    action. *)
Definition next_return (action : value) : JS value :=
  console_log [VStr "next"] ;;; ret action.

(** ** More of the examples *)

(** Connecting components: [mapStateToProps] builds the props of the
    component, an object whose one field is the todos of the state. *)
Definition mapStateToProps (state : value) : JS value :=
  todos <- get_prop state "todos" ;;
  alloc (OObject [("todos", todos)]).

(** Selectors: the result function handed to [createSelector],
    [(todos) => todos.filter(todo => !todo.completed)]. *)
Definition select_visible (todos : value) : JS value :=
  array_filter todos is_visible.

(** [v] is a value [filter] cannot be called on: a primitive, or a plain
    object. *)
Definition not_an_array (h : gmap loc object) (v : value) : Prop :=
  match v with
  | VRef l => exists props, h !! l = Some (OObject props)
  | _ => True
  end.

(** *** Names used and names bound

    The names a phrase uses that nothing around it binds.  A [const] is in
    scope in the whole block (or module) that declares it, a parameter in
    the body of its function, an import in its module. *)

Definition declared (body : list stmt) : list string :=
  omap (fun s => match s with SConst x _ => Some x | _ => None end) body.

Definition is_bound (bound : list string) (x : string) : bool :=
  existsb (String.eqb x) bound.

Fixpoint expr_free (bound : list string) (e : expr) : list string :=
  match e with
  | EIdent x => if is_bound bound x then [] else [x]
  | EStr _ => []
  | EObject props => flat_map (fun kv => expr_free bound (snd kv)) props
  | EArray elems => flat_map (expr_free bound) elems
  | EArrow params body => body_free (params ++ bound) body
  | ECall f args => expr_free bound f ++ flat_map (expr_free bound) args
  | EMember obj _ => expr_free bound obj
  | ENot e' => expr_free bound e'
  end
with body_free (bound : list string) (b : arrow_body) : list string :=
  match b with
  | BExpr e => expr_free bound e
  | BBlock body => flat_map (stmt_free (declared body ++ bound)) body
  end
with stmt_free (bound : list string) (s : stmt) : list string :=
  match s with
  | SConst _ init => expr_free bound init
  | SReturn e => expr_free bound e
  | SExpr e => expr_free bound e
  | SBlock body => flat_map (stmt_free (declared body ++ bound)) body
  | SLabelled _ s' => stmt_free bound s'
  end.

Definition item_free (bound : list string) (it : module_item) : list string :=
  match it with
  | IImportDefault _ _ | IImportNamed _ _ => []
  | IExportConst _ init => expr_free bound init
  | IExportDefault e => expr_free bound e
  | IStmt s => stmt_free bound s
  end.

(** The names a module uses and does not bind, each once, in the order of
    their first use. *)
Definition module_free (items : list module_item) : list string :=
  remove_dups (flat_map (item_free (bindings items)) items).

Definition free_names (text : string) : option (list string) :=
  match parse_module text with
  | Parsed items [] => Some (module_free items)
  | _ => None
  end.

(** More heaps for examples.  In [null_todo_heap] the todos of the state
    at 3 hold a todo and [null]. *)
Definition null_todo_heap : gmap loc object :=
  list_to_map
    [(1%positive, OObject [("text", VStr "Learn Redux"); ("completed", VBool false)]);
     (2%positive, OArray [VRef 1%positive; VNull]);
     (3%positive, OObject [("todos", VRef 2%positive)])].

(** In [other_heap] the todos of the state at 4 have the elements of the
    todos at 6 in [sample_heap], with the same [completed] fields, in other
    objects. *)
Definition other_heap : gmap loc object :=
  list_to_map
    [(2%positive, OObject [("completed", VBool true)]);
     (3%positive, OObject [("completed", VBool false); ("text", VStr "Ship it")]);
     (1%positive, OArray [VRef 2%positive; VRef 3%positive]);
     (4%positive, OObject [("users", VNull); ("todos", VRef 1%positive)])].

(** * Properties *)

(** ** Fuel

    More fuel settles a parse and never changes one that is settled. *)

Lemma settled_refl {A : Type} (r : presult A) : settled r r.
Proof. by right. Qed.

Lemma settled_out {A : Type} (r : presult A) : settled OutOfFuel r.
Proof. by left. Qed.

Lemma pbind_settled {A B : Type} (r r' : presult A)
    (k k' : A -> list token -> presult B) :
  settled r r' -> (forall a rest, settled (k a rest) (k' a rest)) ->
  settled (pbind r k) (pbind r' k').
Proof.
  intros [-> | ->] Hk; [by left |].
  destruct r' as [a rest | here |]; simpl; [apply Hk | by right | by right].
Qed.

Lemma pmap_settled {A B : Type} (f : A -> B) (r r' : presult A) :
  settled r r' -> settled (pmap f r) (pmap f r').
Proof. intros H. apply pbind_settled; [done | intros; apply settled_refl]. Qed.

Lemma expect_settled {A : Type} p ts (k k' : list token -> presult A) :
  (forall rest, settled (k rest) (k' rest)) ->
  settled (expect p ts k) (expect p ts k').
Proof.
  intros Hk. unfold expect.
  repeat case_match; try apply settled_refl; apply Hk.
Qed.

Ltac settle :=
  repeat first
    [ apply settled_refl
    | apply settled_out
    | apply pmap_settled
    | apply pbind_settled; [| intros ? ?]
    | apply expect_settled; intros ?
    | progress eauto
    | case_match ].

Lemma parse_more_fuel (n : nat) :
  (forall ts, settled (parse_assign n ts) (parse_assign (S n) ts)) /\
  (forall ts, settled (parse_arrow_body n ts) (parse_arrow_body (S n) ts)) /\
  (forall ts, settled (parse_unary n ts) (parse_unary (S n) ts)) /\
  (forall ts, settled (parse_primary n ts) (parse_primary (S n) ts)) /\
  (forall e ts, settled (parse_postfix n e ts) (parse_postfix (S n) e ts)) /\
  (forall c ts, settled (parse_list n c ts) (parse_list (S n) c ts)) /\
  (forall c ts, settled (parse_list_item n c ts) (parse_list_item (S n) c ts)) /\
  (forall ts, settled (parse_props n ts) (parse_props (S n) ts)) /\
  (forall kv ts, settled (parse_props_more n kv ts) (parse_props_more (S n) kv ts)) /\
  (forall b ts, settled (parse_stmt n b ts) (parse_stmt (S n) b ts)) /\
  (forall b ts, settled (parse_stmt_item n b ts) (parse_stmt_item (S n) b ts)) /\
  (forall b ts, settled (parse_stmts n b ts) (parse_stmts (S n) b ts)).
Proof.
  induction n as [| n IH].
  - repeat split; intros; apply settled_out.
  - destruct IH as (IH1 & IH2 & IH3 & IH4 & IH5 & IH6 & IH7 & IH8 & IH9 & IH10
                   & IH11 & IH12).
    repeat split; intros; simpl; settle.
Qed.

Lemma parse_assign_more_fuel n ts :
  settled (parse_assign n ts) (parse_assign (S n) ts).
Proof. apply parse_more_fuel. Qed.

Lemma parse_item_more_fuel n ts :
  settled (parse_item n ts) (parse_item (S n) ts).
Proof.
  pose proof (parse_more_fuel n) as (IH1 & _ & _ & _ & _ & _ & _ & _ & _ & _ & IH11 & _).
  unfold parse_item, parse_export. settle.
Qed.

Lemma parse_items_more_fuel n ts :
  settled (parse_items n ts) (parse_items (S n) ts).
Proof.
  revert ts. induction n as [| n IH]; intros ts; [apply settled_out |].
  simpl. pose proof (parse_item_more_fuel n). settle.
Qed.

(** A settled parse of a module is its parse with any fuel beyond. *)
Lemma parse_items_stable n m ts :
  parse_items n ts <> OutOfFuel -> n <= m -> parse_items m ts = parse_items n ts.
Proof.
  intros Hn Hle. induction Hle as [| m Hle IH]; [done |].
  destruct (parse_items_more_fuel m ts) as [Hout | <-]; [| done].
  rewrite Hout in IH. by rewrite IH in Hn.
Qed.

(** Two settled parses of the same tokens agree, whatever their fuel. *)
Lemma parse_items_agree n m ts :
  parse_items n ts <> OutOfFuel -> parse_items m ts <> OutOfFuel ->
  parse_items n ts = parse_items m ts.
Proof.
  intros Hn Hm. destruct (Nat.le_ge_cases n m) as [Hle | Hle].
  - symmetry. by apply parse_items_stable.
  - by apply parse_items_stable.
Qed.

Lemma parse_module_valid text :
  is_parsed (parse_module text) = true -> valid_module text.
Proof.
  unfold parse_module, valid_module. intros H.
  destruct (lex text) as [ts |] eqn:Hlex; [| done].
  destruct (parse_items (fuel_of ts) ts) as [items [| t rest] | |] eqn:Hp; try done.
  by exists ts, (fuel_of ts), items.
Qed.

Lemma parse_expression_valid text :
  is_parsed (parse_expression text) = true -> valid_expression text.
Proof.
  unfold parse_expression, valid_expression. intros H.
  destruct (lex text) as [ts |] eqn:Hlex; [| done].
  destruct (parse_assign (fuel_of ts) ts) as [e [| t rest] | |] eqn:Hp; try done.
  by exists ts, (fuel_of ts), e.
Qed.

(** A text whose parse settles on a syntax error is no module, whatever
    the fuel. *)
Lemma syntax_error_invalid text here :
  parse_module text = SyntaxError here -> ~ valid_module text.
Proof.
  unfold parse_module. intros Herr (ts & n & items & Hlex & Hp).
  rewrite Hlex in Herr.
  assert (parse_items n ts = parse_items (fuel_of ts) ts) as Heq.
  { apply parse_items_agree; [by rewrite Hp | by rewrite Herr]. }
  by rewrite Hp, Herr in Heq.
Qed.

(** ** The file *)

(** The file has 163 lines and eight examples. *)
Lemma source_shape : length source_lines = 163 /\ length examples = 8.
Proof. by vm_compute. Qed.

(** No token: the lexer finds nothing but comments and white space. *)
Lemma source_tokens : lex source = Some [].
Proof. by vm_compute. Qed.

(** The file is the empty module. *)
Lemma program_empty : program = Parsed [] [].
Proof. by vm_compute. Qed.

(** C1, as stated, fails: the second line of the file is empty and stands
    between the comment of line 1 and the comment that opens on line 3,
    inside neither; so not every line lies inside a comment. *)
Lemma line_2_outside_comments :
  source_lines !! 1 = Some EmptyString /\
  classify source_lines !! 1 = Some Blank /\
  ~ Forall (fun k => k = Inside) (classify source_lines).
Proof.
  split; [done |]. split; [by vm_compute |].
  intros H. rewrite Forall_lookup in H.
  assert (Blank = Inside) as Heq by (apply (H 1); by vm_compute).
  discriminate Heq.
Qed.

(** C1, amended: the file holds no executable logic.  Every line that is
    not empty lies inside a comment; the ten others (lines 2, 12, 31, 49,
    69, 84, 98, 118, 136 and 157) are empty and separate the comments.  The
    lexer finds no token, so the file parses to the empty module, which
    binds no name at its top level and exports none, and whose evaluation
    is the computation that returns at once. *)
Theorem source_is_comments :
  classify source_lines
    = map (fun line => if String.eqb line EmptyString then Blank else Inside)
          source_lines /\
  lines_of_kind Blank (classify source_lines)
    = [2; 12; 31; 49; 69; 84; 98; 118; 136; 157] /\
  lex source = Some [] /\
  (exists items, program = Parsed items []
     /\ items = [] /\ bindings items = [] /\ exports items = []) /\
  (forall exec_item, run_module exec_item source = ret tt).
Proof.
  split; [| split; [| split; [| split]]].
  - by vm_compute.
  - by vm_compute.
  - exact source_tokens.
  - exists []. by rewrite program_empty.
  - intros exec_item. unfold run_module. fold program. by rewrite program_empty.
Qed.

(** ** The examples as JavaScript *)

Lemma examples_named :
  examples = [state_example; actions_example; reducers_example; store_example;
              middleware_example; connect_example; selectors_example;
              testing_example].
Proof. by vm_compute. Qed.

(** The first example, the normalized state, is a term of the category of
    expressions only.  Read as a program it is none: where a statement
    begins, an opening brace opens a block and not an object literal;
    [users:] and [byId:] then read as labels, and the colon after ['1'] is
    accepted by no rule. *)
Lemma state_example_is_no_module :
  (exists here, parse_module state_example = SyntaxError (TPunct Colon :: here)) /\
  ~ valid_module state_example /\
  ~ Forall valid_module examples.
Proof.
  assert (exists here, parse_module state_example = SyntaxError (TPunct Colon :: here))
    as Herr by (eexists; vm_compute; reflexivity).
  assert (~ valid_module state_example) as Hno.
  { destruct Herr as [here Herr]. by eapply syntax_error_invalid. }
  split; [done |]. split; [done |].
  rewrite examples_named. intros H. by apply Forall_cons_1 in H as [H _].
Qed.

(** C2: every example of the file is syntactically valid JavaScript: each
    of the eight parses, all tokens used, to a well-formed term.  The
    normalized state parses as an expression, an object literal; the seven
    others (the action creator [addTodo], [rootReducer], the store,
    [logger], the use of [connect], [getVisibleTodos] and the test of
    [addTodo]) parse as modules, in which no name is declared or exported
    twice. *)
Theorem examples_parse :
  length examples = 8 /\
  Forall (fun text => valid_module text \/ valid_expression text) examples /\
  Forall (fun text =>
            valid_module text /\
            exists items,
              parse_module text = Parsed items [] /\ distinct_names items = true)
    [actions_example; reducers_example; store_example; middleware_example;
     connect_example; selectors_example; testing_example] /\
  valid_expression state_example /\
  (exists props, parse_expression state_example = Parsed (EObject props) []).
Proof.
  assert (valid_expression state_example) as Hstate
    by (apply parse_expression_valid; by vm_compute).
  assert (Forall valid_module
            [actions_example; reducers_example; store_example; middleware_example;
             connect_example; selectors_example; testing_example]) as Hmodules
    by (repeat constructor; apply parse_module_valid; by vm_compute).
  split; [by vm_compute |]. split; [| split; [| split]].
  - rewrite examples_named. constructor; [by right |].
    eapply Forall_impl; [exact Hmodules |]. intros text Htext. by left.
  - repeat constructor;
      first [ apply parse_module_valid; by vm_compute
            | eexists; split; vm_compute; reflexivity ].
  - exact Hstate.
  - eexists. vm_compute. reflexivity.
Qed.

(** ** Evaluating the file *)

Lemma run_source exec_item h :
  run_module exec_item source h = Outcome (Normal tt) h [].
Proof. unfold run_module. fold program. by rewrite program_empty. Qed.

(** C3: evaluating the file does nothing.  The module has no item, so no
    statement runs; whatever items would mean, the evaluation completes
    normally, writes nothing to the console and leaves the heap as it was.
    Each of the eleven comments of the file is inert on its own: it lexes
    to no token. *)
Theorem source_evaluation_inert :
  program = Parsed [] [] /\
  (forall exec_item h, run_module exec_item source h = Outcome (Normal tt) h []) /\
  map lex blocks = replicate 11 (Some []).
Proof.
  split; [exact program_empty |]. split; [exact run_source |].
  by vm_compute.
Qed.

(** C4: nothing in the file raises, catches or passes on an error.
    Whatever items would mean, evaluating the file completes normally, so
    it never throws; the module has no item, hence no code path on which
    an error could arise, and the lexer finds no token in the file at
    all. *)
Theorem source_never_throws :
  (forall exec_item h, result (run_module exec_item source h) = Normal tt) /\
  program = Parsed [] [] /\
  lex source = Some [].
Proof.
  split; [| split].
  - intros exec_item h. by rewrite run_source.
  - exact program_empty.
  - exact source_tokens.
Qed.

(** C7: the file defines and enforces no invariant on any state.  The
    module exports nothing and binds nothing, so it offers no operation
    that could check or reject a state; evaluating it accepts every heap
    as it is.  In particular a state of the normalized shape that breaks
    the rule of the shape (in [broken_heap], [byId] has the key ['1']
    alone while [allIds] is ['1', '3'], and the record under ['1'] has the
    [id] ['2']) is accepted like any other. *)
Theorem source_enforces_no_invariant :
  (exists items, program = Parsed items []
     /\ exports items = [] /\ bindings items = []) /\
  (forall exec_item h, run_module exec_item source h = Outcome (Normal tt) h []) /\
  keys_of broken_heap (VRef 2%positive) = Normal ["1"] /\
  broken_heap !! 3%positive = Some (OArray [VStr "1"; VStr "3"]) /\
  result ((r <- get_prop (VRef 2%positive) "1" ;; get_prop r "id") broken_heap)
    = Normal (VStr "2") /\
  (forall exec_item,
     run_module exec_item source broken_heap = Outcome (Normal tt) broken_heap []).
Proof.
  split; [| split; [| split; [| split; [| split]]]].
  - exists []. by rewrite program_empty.
  - exact run_source.
  - by vm_compute.
  - by vm_compute.
  - by vm_compute.
  - intros exec_item. apply run_source.
Qed.

(** ** The heap *)

Lemma fresh_loc_lookup (h : gmap loc object) : h !! fresh_loc h = None.
Proof. apply not_elem_of_dom. unfold fresh_loc. apply is_fresh. Qed.

Lemma lookup_alloc_new (h : gmap loc object) o :
  <[fresh_loc h := o]> h !! fresh_loc h = Some o.
Proof. apply lookup_insert_eq. Qed.

Lemma lookup_alloc_old (h : gmap loc object) l o o' :
  h !! l = Some o -> <[fresh_loc h := o']> h !! l = Some o.
Proof.
  intros Hl. rewrite lookup_insert_ne; [done |].
  intros Heq. rewrite <- Heq, fresh_loc_lookup in Hl. discriminate Hl.
Qed.

(** What can be read in a heap reads the same once an object is added. *)
Lemma read_prop_alloc (h : gmap loc object) o v k r :
  read_prop h v k = Normal r ->
  read_prop (<[fresh_loc h := o]> h) v k = Normal r.
Proof.
  destruct v as [| | b | n | | s | l]; simpl; try done.
  destruct (h !! l) as [o' |] eqn:Hl; [| done].
  by rewrite (lookup_alloc_old h l o' o Hl).
Qed.

(** ** Actions *)

(** Two objects with the fields [type] and [payload], compared by
    [toEqual] to a depth of one or more: equal fields. *)
Lemma to_equal_type_payload depth (h : gmap loc object) (l1 l2 : loc)
    (t1 p1 t2 p2 : value) :
  l1 <> l2 ->
  h !! l1 = Some (OObject [("type", t1); ("payload", p1)]) ->
  h !! l2 = Some (OObject [("type", t2); ("payload", p2)]) ->
  to_equal (S depth) h (VRef l1) (VRef l2)
    = to_equal depth h t1 t2 && to_equal depth h p1 p2.
Proof.
  intros Hne H1 H2. simpl. rewrite decide_False by done. rewrite H1, H2. simpl.
  by destruct (to_equal depth h t1 t2), (to_equal depth h p1 p2).
Qed.

(** As the example stands, with [addTodo] imported alone, the test of the
    Testing example stops at the name [ADD_TODO] with a [ReferenceError],
    before anything is created or expected. *)
Lemma addTodo_test_as_written (h : gmap loc object) :
  addTodo_test None h = Outcome (Throw ReferenceError) h [].
Proof. reflexivity. Qed.

(** C5: for every string [text], [addTodo(text)] returns a new object
    with exactly the two fields [type], the constant [ADD_TODO] (which is
    'ADD_TODO'), and [payload], which is [text]; nothing else in the heap
    changes and nothing is written.  In particular [addTodo('Learn
    Redux')] equals [{ type: ADD_TODO, payload: 'Learn Redux' }], which is
    what the test of the Testing example asserts: with [ADD_TODO] imported
    into the test (the example imports [addTodo] alone), the expectation
    holds, and it holds for no other value in the place of [ADD_TODO]. *)
Theorem addTodo_returns_action (text : string) (h : gmap loc object) :
  let l := fresh_loc h in
  let action := OObject [("type", VStr "ADD_TODO"); ("payload", VStr text)] in
  let h' := <[l := action]> h in
  ADD_TODO = "ADD_TODO" /\
  h !! l = None /\
  addTodo (VStr text) h = Outcome (Normal (VRef l)) h' [] /\
  h' !! l = Some action /\
  keys_of h' (VRef l) = Normal ["type"; "payload"] /\
  read_prop h' (VRef l) "type" = Normal (VStr ADD_TODO) /\
  read_prop h' (VRef l) "payload" = Normal (VStr text) /\
  result (addTodo_test (Some (VStr ADD_TODO)) h) = Normal tt /\
  (forall type,
     result (addTodo_test (Some type) h)
       = if decide (type = VStr ADD_TODO) then Normal tt
         else Throw JestAssertionError).
Proof.
  intros l action h'. split; [done |]. split; [apply fresh_loc_lookup |].
  split; [done |].
  assert (h' !! l = Some action) as Hl by apply lookup_alloc_new.
  split; [done |]. split; [| split; [| split]].
  - unfold keys_of. by rewrite Hl.
  - unfold read_prop. by rewrite Hl.
  - unfold read_prop. by rewrite Hl.
  - assert (forall type,
              result (addTodo_test (Some type) h)
                = if decide (type = VStr ADD_TODO) then Normal tt
                  else Throw JestAssertionError) as Htest.
    { intros type.
      unfold addTodo_test, read_name, addTodo, expect_toEqual, reading, alloc, bind, ret.
      cbn [result final printed].
      set (h1 := <[fresh_loc h := OObject [("type", type);
                                           ("payload", VStr "Learn Redux")]]> h).
      set (h2 := <[fresh_loc h1 := OObject [("type", VStr ADD_TODO);
                                            ("payload", VStr "Learn Redux")]]> h1).
      assert (h1 !! fresh_loc h
              = Some (OObject [("type", type); ("payload", VStr "Learn Redux")]))
        as H1 by apply lookup_alloc_new.
      assert (fresh_loc h1 <> fresh_loc h) as Hne.
      { intros Heq. rewrite <- Heq, fresh_loc_lookup in H1. discriminate H1. }
      rewrite (to_equal_type_payload (size h2) h2 (fresh_loc h1) (fresh_loc h)
                 (VStr ADD_TODO) (VStr "Learn Redux") type (VStr "Learn Redux") Hne).
      - assert (to_equal (size h2) h2 (VStr ADD_TODO) type
                = bool_decide (VStr ADD_TODO = type)) as ->
          by (by destruct (size h2)).
        assert (to_equal (size h2) h2 (VStr "Learn Redux") (VStr "Learn Redux") = true)
          as -> by (by destruct (size h2)).
        rewrite andb_true_r.
        destruct (decide (type = VStr ADD_TODO)) as [-> | Hty].
        + by rewrite bool_decide_eq_true_2.
        + rewrite bool_decide_eq_false_2; [done |]. intros Heq. by apply Hty.
      - apply lookup_alloc_new.
      - unfold h2. by apply lookup_alloc_old. }
    split; [| exact Htest].
    rewrite Htest. by rewrite decide_True.
Qed.

(** ** Middleware *)

(** C8: for every [store], [next] and [action], [logger(store)(next)(action)]
    is [next(action)] but for the console: it completes as [next(action)]
    does, with the same result (or the same error), and leaves the heap
    [next(action)] leaves; it writes the line ['Dispatching:', action] and
    then what [next(action)] writes.  The action reaches [next] as it
    came, once, and the store plays no part. *)
Theorem logger_passes_action_on (store : value) (next : value -> JS value)
    (action : value) (h : gmap loc object) :
  result (logger store next action h) = result (next action h) /\
  final (logger store next action h) = final (next action h) /\
  printed (logger store next action h)
    = [VStr "Dispatching:"; action] :: printed (next action h).
Proof.
  unfold logger, bind, console_log. simpl.
  by destruct (next action h) as [[r | e] h' out].
Qed.

(** With a [next] that returns its action, the action comes back. *)
Lemma logger_next_return store action h :
  logger store next_return action h
    = Outcome (Normal action) h [[VStr "Dispatching:"; action]; [VStr "next"]].
Proof. reflexivity. Qed.

(** ** Selectors *)

(** C6: [getVisibleTodos] depends on the state through its [todos] field
    only.  For two states [s1] and [s2] in one heap whose [todos] fields
    read the same, the two calls come to the same: same result (or same
    error), same heap after, same lines written. *)
Theorem getVisibleTodos_depends_on_todos (h : gmap loc object) (s1 s2 : value) :
  read_prop h s1 "todos" = read_prop h s2 "todos" ->
  getVisibleTodos s1 h = getVisibleTodos s2 h.
Proof.
  intros H.
  unfold getVisibleTodos, createSelector, call_each, getTodos, get_prop.
  unfold bind, reading, ret. simpl. by rewrite H.
Qed.

Lemma getVisibleTodos_depends_on_todos_witness :
  VRef 7%positive <> VRef 8%positive /\
  read_prop sample_heap (VRef 7%positive) "todos"
    = read_prop sample_heap (VRef 8%positive) "todos" /\
  getVisibleTodos (VRef 7%positive) sample_heap
    = getVisibleTodos (VRef 8%positive) sample_heap.
Proof.
  split; [discriminate |]. split; [vm_compute; reflexivity |].
  apply (getVisibleTodos_depends_on_todos sample_heap (VRef 7%positive) (VRef 8%positive)).
  vm_compute; reflexivity.
Defined.

(** The callback reads the [completed] field of its todo, changes nothing
    and writes nothing. *)
Lemma is_visible_run (x : value) (h : gmap loc object) :
  is_visible x h
    = Outcome (match read_prop h x "completed" with
               | Normal c => Normal (VBool (negb (to_boolean c)))
               | Throw e => Throw e
               end) h [].
Proof.
  unfold is_visible, bind, get_prop, reading, ret. simpl.
  by destruct (read_prop h x "completed").
Qed.

(** So the loop of [filter] is a fold over the elements it has to go. *)
Lemma filter_loop_is_visible (h : gmap loc object) (l : loc) (elems : list value) :
  h !! l = Some (OArray elems) ->
  forall count k kept_rev,
    filter_loop is_visible l k count kept_rev h
      = Outcome (visible_fold h (take count (drop k elems)) kept_rev) h [].
Proof.
  intros Hl. induction count as [| count IH]; intros k kept_rev; simpl.
  - done.
  - rewrite Hl. destruct (elems !! k) as [x |] eqn:Hk.
    + rewrite (drop_S _ _ _ Hk). simpl.
      unfold bind. rewrite is_visible_run. simpl.
      destruct (read_prop h x "completed") as [c | e]; [| done].
      by rewrite IH.
    + rewrite IH. apply lookup_ge_None in Hk.
      rewrite !drop_ge by lia. by rewrite !take_nil.
Qed.

Lemma visible_fold_filter (h : gmap loc object) (xs kept_rev : list value) :
  Forall (has_completed h) xs ->
  visible_fold h xs kept_rev
    = Normal (rev kept_rev ++ List.filter (completed_falsy h) xs).
Proof.
  intros Hxs. revert kept_rev.
  induction Hxs as [| x xs [c Hc] _ IH]; intros kept_rev; simpl.
  - by rewrite app_nil_r.
  - unfold completed_falsy at 1. rewrite Hc. simpl.
    destruct (negb (to_boolean c)); rewrite IH; [| done].
    simpl. by rewrite <- app_assoc.
Qed.

(** Where every [completed] field is a boolean, falsy is [false]. *)
Lemma completed_falsy_false (h : gmap loc object) (xs : list value) :
  Forall (fun x => exists b, read_prop h x "completed" = Normal (VBool b)) xs ->
  List.filter (completed_falsy h) xs = List.filter (completed_false h) xs.
Proof.
  induction 1 as [| x xs [b Hb] _ IH]; [done |]. simpl.
  unfold completed_falsy at 1, completed_false at 1. rewrite Hb, IH.
  by destruct b.
Qed.

(** What [getVisibleTodos] comes to on a state whose [todos] is an array:
    a new array of the todos kept, or the error of the first todo whose
    [completed] field cannot be read. *)
Lemma getVisibleTodos_run (h : gmap loc object) (state : value) (l : loc)
    (elems : list value) :
  read_prop h state "todos" = Normal (VRef l) ->
  h !! l = Some (OArray elems) ->
  getVisibleTodos state h
    = match visible_fold h elems [] with
      | Normal kept =>
          Outcome (Normal (VRef (fresh_loc h))) (<[fresh_loc h := OArray kept]> h) []
      | Throw e => Outcome (Throw e) h []
      end.
Proof.
  intros Htodos Hl.
  unfold getVisibleTodos, createSelector, call_each, getTodos, get_prop.
  unfold bind at 1 2 3. unfold ret at 1 2. unfold reading. simpl.
  rewrite Htodos. simpl.
  unfold array_filter. rewrite Hl. unfold bind.
  rewrite (filter_loop_is_visible h l elems Hl), drop_0, firstn_all. simpl.
  by destruct (visible_fold h elems []).
Qed.

Lemma visible_fold_ext (h1 h2 : gmap loc object) (xs kept_rev : list value) :
  Forall (fun x => read_prop h1 x "completed" = read_prop h2 x "completed") xs ->
  visible_fold h1 xs kept_rev = visible_fold h2 xs kept_rev.
Proof.
  intros Hxs. revert kept_rev.
  induction Hxs as [| x xs Hx _ IH]; intros kept_rev; simpl; [done |].
  rewrite Hx. destruct (read_prop h2 x "completed"); [apply IH | done].
Qed.

(** X10: two runs, in two heaps: when the two states have todos with the same
    elements, and the [completed] fields of these read the same in both
    heaps, both runs throw the same error or both return arrays with the
    same elements. *)
Lemma getVisibleTodos_two_heaps (h1 h2 : gmap loc object) (s1 s2 : value)
    (l1 l2 : loc) (elems : list value) :
  read_prop h1 s1 "todos" = Normal (VRef l1) -> h1 !! l1 = Some (OArray elems) ->
  read_prop h2 s2 "todos" = Normal (VRef l2) -> h2 !! l2 = Some (OArray elems) ->
  Forall (fun x => read_prop h1 x "completed" = read_prop h2 x "completed") elems ->
  (exists e, result (getVisibleTodos s1 h1) = Throw e
             /\ result (getVisibleTodos s2 h2) = Throw e)
  \/ (exists r1 r2 kept,
        result (getVisibleTodos s1 h1) = Normal (VRef r1)
        /\ result (getVisibleTodos s2 h2) = Normal (VRef r2)
        /\ final (getVisibleTodos s1 h1) !! r1 = Some (OArray kept)
        /\ final (getVisibleTodos s2 h2) !! r2 = Some (OArray kept)).
Proof.
  intros Ht1 Hl1 Ht2 Hl2 Hsame.
  rewrite (getVisibleTodos_run h1 s1 l1 elems Ht1 Hl1).
  rewrite (getVisibleTodos_run h2 s2 l2 elems Ht2 Hl2).
  rewrite (visible_fold_ext h1 h2 elems [] Hsame).
  destruct (visible_fold h2 elems []) as [kept | e]; simpl.
  - right. exists (fresh_loc h1), (fresh_loc h2), kept.
    by rewrite !lookup_alloc_new.
  - left. by exists e.
Qed.

(** C9, as stated, fails: a todo without a [completed] field is kept,
    though its [completed] field is not [false] but [undefined].  In
    [sample_heap] the state at 5 has the todos [[{ text: 'Learn Redux' }]];
    [getVisibleTodos] returns an array with that todo, while no element of
    the todos has [completed] equal to [false]. *)
Lemma getVisibleTodos_keeps_todo_without_completed :
  read_prop sample_heap (VRef 5%positive) "todos" = Normal (VRef 4%positive) /\
  sample_heap !! 4%positive = Some (OArray [VRef 1%positive]) /\
  read_prop sample_heap (VRef 1%positive) "completed" = Normal VUndefined /\
  List.filter (completed_false sample_heap) [VRef 1%positive] = [] /\
  result (getVisibleTodos (VRef 5%positive) sample_heap) = Normal (VRef 9%positive) /\
  final (getVisibleTodos (VRef 5%positive) sample_heap) !! 9%positive
    = Some (OArray [VRef 1%positive]) /\
  final (getVisibleTodos (VRef 5%positive) sample_heap) !! 9%positive
    <> Some (OArray (List.filter (completed_false sample_heap) [VRef 1%positive])).
Proof.
  repeat split; try (by vm_compute).
Qed.

(** C9, amended: the cache of reselect left out, that is on a call the
    selector computes and does not answer from an earlier one, and where
    [state.todos] is an array whose elements are not [undefined] or
    [null], [getVisibleTodos(state)] returns a new array of exactly the
    elements of [state.todos] whose [completed] field is falsy
    ([false], [undefined] or missing, [null], [0], [NaN], the empty
    string), in their original order; these are the elements whose
    [completed] field is [false] when every [completed] field is a
    boolean.  Every object of the heap, [state.todos] among them, is left
    as it was, and nothing is written to the console. *)
Theorem getVisibleTodos_keeps_falsy_completed
    (h : gmap loc object) (state : value) (l : loc) (elems : list value) :
  read_prop h state "todos" = Normal (VRef l) ->
  h !! l = Some (OArray elems) ->
  Forall (has_completed h) elems ->
  let r := fresh_loc h in
  let kept := List.filter (completed_falsy h) elems in
  let h' := <[r := OArray kept]> h in
  getVisibleTodos state h = Outcome (Normal (VRef r)) h' [] /\
  h !! r = None /\
  h' !! r = Some (OArray kept) /\
  h' !! l = Some (OArray elems) /\
  read_prop h' state "todos" = Normal (VRef l) /\
  (forall l' o, h !! l' = Some o -> h' !! l' = Some o) /\
  (Forall (fun x => exists b, read_prop h x "completed" = Normal (VBool b)) elems ->
   kept = List.filter (completed_false h) elems).
Proof.
  intros Htodos Hl Helems r kept h'.
  split; [| split; [| split; [| split; [| split; [| split]]]]].
  - rewrite (getVisibleTodos_run h state l elems Htodos Hl).
    by rewrite (visible_fold_filter _ _ _ Helems).
  - apply fresh_loc_lookup.
  - apply lookup_alloc_new.
  - by apply lookup_alloc_old.
  - by apply read_prop_alloc.
  - intros l' o Hl'. by apply lookup_alloc_old.
  - apply completed_falsy_false.
Qed.

Lemma getVisibleTodos_keeps_falsy_completed_witness :
  getVisibleTodos (VRef 7%positive) sample_heap
    = Outcome (Normal (VRef 9%positive))
              (<[9%positive := OArray [VRef 3%positive]]> sample_heap) [] /\
  sample_heap !! 6%positive = Some (OArray [VRef 2%positive; VRef 3%positive]).
Proof.
  pose proof (getVisibleTodos_keeps_falsy_completed sample_heap (VRef 7%positive)
                6%positive [VRef 2%positive; VRef 3%positive]) as H.
  destruct H as (Hrun & _).
  - vm_compute; reflexivity.
  - vm_compute; reflexivity.
  - repeat constructor.
    + exists (VBool true). vm_compute; reflexivity.
    + exists (VBool false). vm_compute; reflexivity.
  - split; [exact Hrun | vm_compute; reflexivity].
Defined.

(** ** State structure *)

Ltac heap_lookup :=
  repeat first [ apply lookup_alloc_new | apply lookup_alloc_old ].

(** A computation that begins by creating an object goes on in the heap
    with that object, at a fresh location. *)
Lemma bind_alloc {B : Type} (o : object) (k : value -> JS B)
    (h : gmap loc object) r h' out :
  k (VRef (fresh_loc h)) (<[fresh_loc h := o]> h) = Outcome r h' out ->
  (x <- alloc o ;; k x) h = Outcome r h' out.
Proof. intros Hk. unfold bind, alloc. simpl. by rewrite Hk. Qed.

(** C10: the state of the State Structure example obeys the rule it
    illustrates.  In whatever heap the literal is evaluated, it yields a
    state whose [users.allIds] is the array ['1', '2'], which lists
    exactly the keys of [users.byId], and for each id in it the record
    [users.byId[id]] has its [id] field equal to that id. *)
Theorem normalized_state_is_normalized (h : gmap loc object) :
  exists (state users byId : value) (allIds : loc) (ids : list string)
         (h' : gmap loc object),
    normalized_state h = Outcome (Normal state) h' [] /\
    read_prop h' state "users" = Normal users /\
    read_prop h' users "byId" = Normal byId /\
    read_prop h' users "allIds" = Normal (VRef allIds) /\
    ids = ["1"; "2"] /\
    h' !! allIds = Some (OArray (map VStr ids)) /\
    keys_of h' byId = Normal ids /\
    Forall (fun id =>
              exists record,
                read_prop h' byId id = Normal record /\
                read_prop h' record "id" = Normal (VStr id))
           ids.
Proof.
  pose (h1 := <[fresh_loc h := OObject [("id", VStr "1"); ("name", VStr "John")]]> h).
  pose (h2 := <[fresh_loc h1 := OObject [("id", VStr "2"); ("name", VStr "Jane")]]> h1).
  pose (h3 := <[fresh_loc h2 := OObject [("1", VRef (fresh_loc h));
                                         ("2", VRef (fresh_loc h1))]]> h2).
  pose (h4 := <[fresh_loc h3 := OArray [VStr "1"; VStr "2"]]> h3).
  pose (h5 := <[fresh_loc h4 := OObject [("byId", VRef (fresh_loc h2));
                                         ("allIds", VRef (fresh_loc h3))]]> h4).
  pose (h6 := <[fresh_loc h5 := OObject [("users", VRef (fresh_loc h4))]]> h5).
  assert (h6 !! fresh_loc h5
          = Some (OObject [("users", VRef (fresh_loc h4))])) as H6
    by (unfold h6; heap_lookup).
  assert (h6 !! fresh_loc h4
          = Some (OObject [("byId", VRef (fresh_loc h2));
                           ("allIds", VRef (fresh_loc h3))])) as H5
    by (unfold h6, h5; heap_lookup).
  assert (h6 !! fresh_loc h3 = Some (OArray [VStr "1"; VStr "2"])) as H4
    by (unfold h6, h5, h4; heap_lookup).
  assert (h6 !! fresh_loc h2
          = Some (OObject [("1", VRef (fresh_loc h)); ("2", VRef (fresh_loc h1))]))
    as H3 by (unfold h6, h5, h4, h3; heap_lookup).
  assert (h6 !! fresh_loc h1
          = Some (OObject [("id", VStr "2"); ("name", VStr "Jane")])) as H2
    by (unfold h6, h5, h4, h3, h2; heap_lookup).
  assert (h6 !! fresh_loc h
          = Some (OObject [("id", VStr "1"); ("name", VStr "John")])) as H1
    by (unfold h6, h5, h4, h3, h2, h1; heap_lookup).
  exists (VRef (fresh_loc h5)), (VRef (fresh_loc h4)), (VRef (fresh_loc h2)),
         (fresh_loc h3), ["1"; "2"], h6.
  split.
  { unfold normalized_state. do 5 apply bind_alloc. reflexivity. }
  unfold read_prop, keys_of. rewrite H6, H5, H4, H3.
  repeat split.
  repeat constructor.
  - exists (VRef (fresh_loc h)). by rewrite H1.
  - exists (VRef (fresh_loc h1)). by rewrite H2.
Qed.

(** * More properties of the examples *)

(** ** Actions, beyond strings *)

Lemma fresh_loc_ne (h : gmap loc object) l o : h !! l = Some o -> fresh_loc h <> l.
Proof. intros Hl Heq. rewrite <- Heq, fresh_loc_lookup in Hl. discriminate Hl. Qed.

Lemma to_equal_refl depth (h : gmap loc object) (v : value) :
  to_equal depth h v v = true.
Proof.
  destruct depth, v; simpl; try done;
    try (by apply bool_decide_eq_true_2); by case_decide.
Qed.

(** The two objects [addTodo] makes of [a] and of [b], compared by
    [toEqual] to any depth of one or more. *)
Lemma to_equal_actions depth (h : gmap loc object) (l1 l2 : loc) (a b : value) :
  l1 <> l2 ->
  h !! l1 = Some (OObject [("type", VStr ADD_TODO); ("payload", a)]) ->
  h !! l2 = Some (OObject [("type", VStr ADD_TODO); ("payload", b)]) ->
  to_equal (S depth) h (VRef l1) (VRef l2) = to_equal depth h a b.
Proof.
  intros Hne H1 H2. simpl. rewrite decide_False by done. rewrite H1, H2. simpl.
  rewrite to_equal_refl. simpl. by destruct (to_equal depth h a b).
Qed.

(** X1: [addTodo] takes any value, not only strings, and never throws:
    it returns a new object whose [payload] is the argument itself (a
    reference stays the same reference, a missing argument gives
    [undefined]), writes nothing, and leaves every object of the heap and
    everything that could be read in it as it was. *)
Theorem addTodo_any_payload (v : value) (h : gmap loc object) :
  let l := fresh_loc h in
  let h' := final (addTodo v h) in
  result (addTodo v h) = Normal (VRef l) /\
  printed (addTodo v h) = [] /\
  h !! l = None /\
  read_prop h' (VRef l) "type" = Normal (VStr "ADD_TODO") /\
  read_prop h' (VRef l) "payload" = Normal v /\
  keys_of h' (VRef l) = Normal ["type"; "payload"] /\
  (forall l' o, h !! l' = Some o -> h' !! l' = Some o) /\
  (forall x k r, read_prop h x k = Normal r -> read_prop h' x k = Normal r).
Proof.
  intros l h'. unfold h', addTodo, alloc; simpl. fold l.
  assert (<[l := OObject [("type", VStr ADD_TODO); ("payload", v)]]> h !! l
          = Some (OObject [("type", VStr ADD_TODO); ("payload", v)])) as Hl
    by apply lookup_alloc_new.
  repeat split.
  - apply fresh_loc_lookup.
  - by rewrite Hl.
  - by rewrite Hl.
  - by rewrite Hl.
  - intros l' o Hl'. by apply lookup_alloc_old.
  - intros x k r Hr. by apply read_prop_alloc.
Qed.

(** X2: two calls of [addTodo] with the same argument return two
    different objects, which [toEqual] finds equal: actions are equal by
    content, never by identity. *)
Theorem addTodo_twice (v : value) (h : gmap loc object) :
  exists r1 r2,
    r1 <> r2 /\
    result ((a1 <- addTodo v ;; a2 <- addTodo v ;; ret (a1, a2)) h)
      = Normal (VRef r1, VRef r2) /\
    result ((a1 <- addTodo v ;; a2 <- addTodo v ;; expect_toEqual a1 a2) h)
      = Normal tt.
Proof.
  set (o := OObject [("type", VStr ADD_TODO); ("payload", v)]).
  set (h1 := <[fresh_loc h := o]> h).
  set (h2 := <[fresh_loc h1 := o]> h1).
  assert (h1 !! fresh_loc h = Some o) as H1 by apply lookup_alloc_new.
  assert (fresh_loc h <> fresh_loc h1) as Hne.
  { intros Heq. by apply (fresh_loc_ne h1 _ o H1). }
  exists (fresh_loc h), (fresh_loc h1). split; [done |]. split; [done |].
  unfold addTodo, expect_toEqual, reading, alloc, bind. cbn [result final printed].
  fold o. fold h1. fold h2.
  rewrite (to_equal_actions (size h2) h2 (fresh_loc h) (fresh_loc h1) v v Hne).
  - by rewrite to_equal_refl.
  - unfold h2. by apply lookup_alloc_old.
  - apply lookup_alloc_new.
Qed.

(** X3: [toEqual] tells the actions of two texts apart: the action of
    [a] equals the action of [b] exactly when [a] is [b]; with another
    text the expectation fails with Jest's assertion error. *)
Theorem addTodo_toEqual_same_text (a b : string) (h : gmap loc object) :
  result ((x <- addTodo (VStr a) ;; y <- addTodo (VStr b) ;; expect_toEqual x y) h)
    = if decide (a = b) then Normal tt else Throw JestAssertionError.
Proof.
  set (h1 := <[fresh_loc h := OObject [("type", VStr ADD_TODO); ("payload", VStr a)]]> h).
  set (h2 := <[fresh_loc h1 := OObject [("type", VStr ADD_TODO); ("payload", VStr b)]]> h1).
  assert (h1 !! fresh_loc h
          = Some (OObject [("type", VStr ADD_TODO); ("payload", VStr a)])) as H1
    by apply lookup_alloc_new.
  assert (fresh_loc h <> fresh_loc h1) as Hne.
  { intros Heq. by apply (fresh_loc_ne h1 _ _ H1). }
  unfold addTodo, expect_toEqual, reading, alloc, bind. cbn [result final printed].
  fold h1. fold h2.
  rewrite (to_equal_actions (size h2) h2 (fresh_loc h) (fresh_loc h1)
             (VStr a) (VStr b) Hne).
  - assert (to_equal (size h2) h2 (VStr a) (VStr b) = bool_decide (VStr a = VStr b))
      as -> by (by destruct (size h2)).
    destruct (decide (a = b)) as [-> | Hab].
    + by rewrite bool_decide_eq_true_2.
    + rewrite bool_decide_eq_false_2; [done |]. intros [= Heq]. by apply Hab.
  - unfold h2. by apply lookup_alloc_old.
  - apply lookup_alloc_new.
Qed.

(** ** Middleware, composed *)

Lemma logger_run store (next : value -> JS value) action h :
  logger store next action h
    = Outcome (result (next action h)) (final (next action h))
              ([VStr "Dispatching:"; action] :: printed (next action h)).
Proof.
  unfold logger, bind, console_log. cbn [result final printed].
  by destruct (result (next action h)).
Qed.

(** X4: [n] loggers in a row before [next] (as when the middleware is
    applied [n] times) pass the action on through all of them: the chain
    completes as [next(action)] does, result or error, leaves the heap
    [next(action)] leaves, and writes the line ['Dispatching:', action]
    [n] times before what [next(action)] writes. *)
Theorem logger_chain (n : nat) (store : value) (next : value -> JS value)
    (action : value) (h : gmap loc object) :
  let chain := Nat.iter n (logger store) next in
  result (chain action h) = result (next action h) /\
  final (chain action h) = final (next action h) /\
  printed (chain action h)
    = replicate n [VStr "Dispatching:"; action] ++ printed (next action h).
Proof.
  cbv zeta. induction n as [| n (IHr & IHf & IHp)]; [done |].
  rewrite Nat.iter_succ, logger_run. cbn [result final printed replicate].
  by rewrite IHr, IHf, IHp.
Qed.

(** X5: dispatching what [addTodo] returns through the logger: the line
    written names the action object itself, and [next] receives that same
    object, in a heap where it has its two fields; the outcome is that of
    [next] on it. *)
Theorem logger_dispatches_addTodo (store : value) (next : value -> JS value)
    (v : value) (h : gmap loc object) :
  let l := fresh_loc h in
  let h' := <[l := OObject [("type", VStr "ADD_TODO"); ("payload", v)]]> h in
  let run := (action <- addTodo v ;; logger store next action) h in
  result run = result (next (VRef l) h') /\
  final run = final (next (VRef l) h') /\
  printed run = [VStr "Dispatching:"; VRef l] :: printed (next (VRef l) h') /\
  read_prop h' (VRef l) "payload" = Normal v.
Proof.
  intros l h' run. unfold run, addTodo, alloc. unfold bind at 1.
  cbn [result final printed]. fold l. fold h'. rewrite logger_run.
  repeat split.
  unfold read_prop, h', l. by rewrite lookup_alloc_new.
Qed.

(** ** Selectors: errors, fresh arrays, composition *)

Lemma getVisibleTodos_unfold (state : value) (h : gmap loc object) :
  getVisibleTodos state h
    = match read_prop h state "todos" with
      | Normal todos =>
          let o := array_filter todos is_visible h in
          Outcome (result o) (final o) (printed o)
      | Throw e => Outcome (Throw e) h []
      end.
Proof.
  unfold getVisibleTodos, createSelector, call_each, getTodos, get_prop.
  unfold bind at 1 2 3. unfold ret at 1 2. unfold reading.
  cbn [result final printed].
  by destruct (read_prop h state "todos").
Qed.

(** X6: on a state without a todos array, [getVisibleTodos] throws a
    [TypeError] and changes nothing: when the state is [undefined] or
    [null], and when [state.todos] is missing (it reads as [undefined]) or
    is anything but an array (a primitive, a plain object). *)
Theorem getVisibleTodos_without_array (state : value) (h : gmap loc object) :
  (state = VUndefined \/ state = VNull
   \/ exists todos, read_prop h state "todos" = Normal todos /\ not_an_array h todos) ->
  getVisibleTodos state h = Outcome (Throw TypeError) h [].
Proof.
  intros [-> | [-> | (todos & Hread & Hno)]]; [done | done |].
  rewrite getVisibleTodos_unfold, Hread. unfold array_filter.
  destruct todos as [| | b | n | | s | l]; try done.
  destruct Hno as [props Hl]. by rewrite Hl.
Qed.

Lemma getVisibleTodos_without_array_witness :
  read_prop sample_heap (VRef 1%positive) "todos" = Normal VUndefined /\
  getVisibleTodos (VRef 1%positive) sample_heap
    = Outcome (Throw TypeError) sample_heap [] /\
  getVisibleTodos (VRef 7%positive) (<[6%positive := OObject []]> sample_heap)
    = Outcome (Throw TypeError) (<[6%positive := OObject []]> sample_heap) [].
Proof.
  split; [vm_compute; reflexivity |]. split.
  - apply (getVisibleTodos_without_array (VRef 1%positive) sample_heap).
    right; right. exists VUndefined. split; [vm_compute; reflexivity | exact I].
  - apply (getVisibleTodos_without_array (VRef 7%positive)).
    right; right. exists (VRef 6%positive).
    split; [vm_compute; reflexivity |]. exists []. vm_compute; reflexivity.
Defined.

Lemma visible_fold_unreadable (h : gmap loc object) (pre post : list value)
    (x : value) (e : error) (kept_rev : list value) :
  Forall (has_completed h) pre ->
  read_prop h x "completed" = Throw e ->
  visible_fold h (pre ++ x :: post) kept_rev = Throw e.
Proof.
  intros Hpre Hx. revert kept_rev.
  induction Hpre as [| y pre [c Hc] _ IH]; intros kept_rev; simpl.
  - by rewrite Hx.
  - rewrite Hc. apply IH.
Qed.

(** X7: a todo that is [undefined] or [null] makes [getVisibleTodos]
    throw a [TypeError] (its [completed] field cannot be read), whatever
    stands after it in the array; no array is returned, the heap is left
    as it was and nothing is written. *)
Theorem getVisibleTodos_null_todo (h : gmap loc object) (state : value) (l : loc)
    (pre post : list value) (x : value) :
  read_prop h state "todos" = Normal (VRef l) ->
  h !! l = Some (OArray (pre ++ x :: post)) ->
  Forall (has_completed h) pre ->
  x = VUndefined \/ x = VNull ->
  getVisibleTodos state h = Outcome (Throw TypeError) h [].
Proof.
  intros Htodos Hl Hpre Hx.
  rewrite (getVisibleTodos_run h state l _ Htodos Hl).
  rewrite (visible_fold_unreadable h pre post x TypeError); [done | done |].
  by destruct Hx as [-> | ->].
Qed.

Lemma getVisibleTodos_null_todo_witness :
  null_todo_heap !! 2%positive = Some (OArray [VRef 1%positive; VNull]) /\
  getVisibleTodos (VRef 3%positive) null_todo_heap
    = Outcome (Throw TypeError) null_todo_heap [].
Proof.
  split; [vm_compute; reflexivity |].
  apply (getVisibleTodos_null_todo null_todo_heap (VRef 3%positive) 2%positive
           [VRef 1%positive] [] VNull).
  - vm_compute; reflexivity.
  - vm_compute; reflexivity.
  - repeat constructor. exists (VBool false). vm_compute; reflexivity.
  - right; reflexivity.
Defined.

Lemma has_completed_alloc (h : gmap loc object) o (x : value) :
  has_completed h x -> has_completed (<[fresh_loc h := o]> h) x.
Proof. intros [c Hc]. exists c. by apply read_prop_alloc. Qed.

Lemma completed_falsy_alloc (h : gmap loc object) o (x : value) :
  has_completed h x ->
  completed_falsy (<[fresh_loc h := o]> h) x = completed_falsy h x.
Proof.
  intros [c Hc]. unfold completed_falsy.
  by rewrite (read_prop_alloc h o x _ c Hc), Hc.
Qed.

Lemma filter_completed_falsy_alloc (h : gmap loc object) o (xs : list value) :
  Forall (has_completed h) xs ->
  List.filter (completed_falsy (<[fresh_loc h := o]> h)) xs
    = List.filter (completed_falsy h) xs.
Proof.
  induction 1 as [| x xs Hx _ IH]; [done |]. simpl.
  by rewrite (completed_falsy_alloc h o x Hx), IH.
Qed.

Lemma Forall_filter_completed (h : gmap loc object) (P : value -> Prop)
    (xs : list value) :
  Forall P xs -> Forall P (List.filter (completed_falsy h) xs).
Proof.
  induction 1 as [| x xs Hx _ IH]; simpl; [done |].
  destruct (completed_falsy h x); [by constructor | done].
Qed.

Lemma filter_completed_falsy_twice (h : gmap loc object) (xs : list value) :
  List.filter (completed_falsy h) (List.filter (completed_falsy h) xs)
    = List.filter (completed_falsy h) xs.
Proof.
  induction xs as [| x xs IH]; [done |]. simpl.
  destruct (completed_falsy h x) eqn:Hx; simpl; [| done].
  by rewrite Hx, IH.
Qed.

(** What [getVisibleTodos] comes to where every todo can be read. *)
Lemma getVisibleTodos_readable (h : gmap loc object) (state : value) (l : loc)
    (elems : list value) :
  read_prop h state "todos" = Normal (VRef l) ->
  h !! l = Some (OArray elems) ->
  Forall (has_completed h) elems ->
  getVisibleTodos state h
    = Outcome (Normal (VRef (fresh_loc h)))
              (<[fresh_loc h := OArray (List.filter (completed_falsy h) elems)]> h) [].
Proof.
  intros Htodos Hl Helems.
  rewrite (getVisibleTodos_run h state l elems Htodos Hl).
  by rewrite (visible_fold_filter _ _ _ Helems).
Qed.

(** [select_visible] is the result function of [getVisibleTodos]. *)
Lemma getVisibleTodos_result_function :
  getVisibleTodos
    = createSelector [getTodos] (fun args => select_visible (nth 0 args VUndefined)).
Proof. reflexivity. Qed.

(** What the result function comes to on an array whose todos can all be
    read. *)
Lemma select_visible_readable (h : gmap loc object) (l : loc) (elems : list value) :
  h !! l = Some (OArray elems) ->
  Forall (has_completed h) elems ->
  select_visible (VRef l) h
    = Outcome (Normal (VRef (fresh_loc h)))
              (<[fresh_loc h := OArray (List.filter (completed_falsy h) elems)]> h) [].
Proof.
  intros Hl Helems. unfold select_visible, array_filter. rewrite Hl. unfold bind.
  rewrite (filter_loop_is_visible h l elems Hl), drop_0, firstn_all.
  cbn [result final printed].
  by rewrite (visible_fold_filter _ _ _ Helems).
Qed.

(** X8: the result function of the selector, [(todos) =>
    todos.filter(...)], makes a new array on every call.  Called twice in a
    row on the same todos it returns two different arrays, both different
    from the todos, with the same elements; this also when no todo is left
    out.  (It is the work [createSelector] spares by its cache, which hands
    back the array of the earlier call.) *)
Theorem select_visible_twice (h : gmap loc object) (l : loc) (elems : list value) :
  h !! l = Some (OArray elems) ->
  Forall (has_completed h) elems ->
  let run := (first <- select_visible (VRef l) ;;
              second <- select_visible (VRef l) ;;
              ret (first, second)) h in
  let kept := List.filter (completed_falsy h) elems in
  exists r1 r2,
    result run = Normal (VRef r1, VRef r2) /\
    r1 <> r2 /\ r1 <> l /\ r2 <> l /\
    final run !! r1 = Some (OArray kept) /\
    final run !! r2 = Some (OArray kept) /\
    final run !! l = Some (OArray elems) /\
    printed run = [].
Proof.
  intros Hl Helems run kept.
  set (h1 := <[fresh_loc h := OArray kept]> h).
  assert (h1 !! fresh_loc h = Some (OArray kept)) as Hr1 by apply lookup_alloc_new.
  assert (h1 !! l = Some (OArray elems)) as Hl1 by (by apply lookup_alloc_old).
  assert (select_visible (VRef l) h1
          = Outcome (Normal (VRef (fresh_loc h1)))
                    (<[fresh_loc h1 := OArray kept]> h1) []) as Hsecond.
  { rewrite (select_visible_readable h1 l elems).
    - unfold h1. by rewrite filter_completed_falsy_alloc.
    - done.
    - eapply Forall_impl; [exact Helems |]. intros x. apply has_completed_alloc. }
  exists (fresh_loc h), (fresh_loc h1).
  unfold run, bind. rewrite (select_visible_readable h l elems Hl Helems).
  cbn [result final printed]. fold kept. fold h1. rewrite Hsecond.
  cbn [result final printed ret].
  split; [done |].
  split; [intros Heq; by apply (fresh_loc_ne h1 _ _ Hr1) |].
  split; [by apply (fresh_loc_ne h l (OArray elems)) |].
  split; [by apply (fresh_loc_ne h1 l (OArray elems)) |].
  split; [by apply lookup_alloc_old |].
  split; [apply lookup_alloc_new |].
  split; [by apply lookup_alloc_old | done].
Qed.

Lemma select_visible_twice_witness :
  let run := (first <- select_visible (VRef 6%positive) ;;
              second <- select_visible (VRef 6%positive) ;;
              ret (first, second)) sample_heap in
  let kept := List.filter (completed_falsy sample_heap) [VRef 2%positive; VRef 3%positive] in
  exists r1 r2,
    result run = Normal (VRef r1, VRef r2) /\
    r1 <> r2 /\ r1 <> 6%positive /\ r2 <> 6%positive /\
    final run !! r1 = Some (OArray kept) /\
    final run !! r2 = Some (OArray kept) /\
    final run !! 6%positive = Some (OArray [VRef 2%positive; VRef 3%positive]) /\
    printed run = [].
Proof.
  apply (select_visible_twice sample_heap 6%positive
           [VRef 2%positive; VRef 3%positive]).
  - vm_compute; reflexivity.
  - repeat constructor.
    + exists (VBool true). vm_compute; reflexivity.
    + exists (VBool false). vm_compute; reflexivity.
Defined.

(** A computation after one that completes normally and writes nothing. *)
Lemma bind_quiet {A B : Type} (m : JS A) (k : A -> JS B) (h : gmap loc object)
    a h1 r h2 out :
  m h = Outcome (Normal a) h1 [] ->
  k a h1 = Outcome r h2 out ->
  (x <- m ;; k x) h = Outcome r h2 out.
Proof. intros Hm Hk. unfold bind. rewrite Hm. cbn [result final printed]. by rewrite Hk. Qed.

(** X9: the selector is idempotent: applied to a state whose todos are
    what it returned, it returns an array with the same elements again (a
    new one). *)
Theorem getVisibleTodos_idempotent (h : gmap loc object) (state : value) (l : loc)
    (elems : list value) :
  read_prop h state "todos" = Normal (VRef l) ->
  h !! l = Some (OArray elems) ->
  Forall (has_completed h) elems ->
  let run := (visible <- getVisibleTodos state ;;
              state' <- alloc (OObject [("todos", visible)]) ;;
              again <- getVisibleTodos state' ;;
              ret (visible, again)) h in
  let kept := List.filter (completed_falsy h) elems in
  exists r1 r2,
    result run = Normal (VRef r1, VRef r2) /\
    r1 <> r2 /\
    final run !! r1 = Some (OArray kept) /\
    final run !! r2 = Some (OArray kept).
Proof.
  intros Htodos Hl Helems run kept.
  set (h1 := <[fresh_loc h := OArray kept]> h).
  set (h2 := <[fresh_loc h1 := OObject [("todos", VRef (fresh_loc h))]]> h1).
  assert (h1 !! fresh_loc h = Some (OArray kept)) as Hr1 by apply lookup_alloc_new.
  assert (h2 !! fresh_loc h = Some (OArray kept)) as Hr2 by (by apply lookup_alloc_old).
  assert (Forall (has_completed h2) kept) as Hkept.
  { apply Forall_filter_completed.
    eapply Forall_impl; [exact Helems |]. intros x Hx.
    by apply has_completed_alloc, has_completed_alloc. }
  assert (List.filter (completed_falsy h2) kept = kept) as Hsame.
  { assert (Forall (has_completed h) kept) as Hk
      by (by apply Forall_filter_completed).
    unfold h2. rewrite filter_completed_falsy_alloc
      by (eapply Forall_impl; [exact Hk |]; intros x; apply has_completed_alloc).
    unfold h1. rewrite filter_completed_falsy_alloc by done.
    apply filter_completed_falsy_twice. }
  assert (getVisibleTodos (VRef (fresh_loc h1)) h2
          = Outcome (Normal (VRef (fresh_loc h2)))
                    (<[fresh_loc h2 := OArray kept]> h2) []) as Hagain.
  { rewrite (getVisibleTodos_readable h2 (VRef (fresh_loc h1)) (fresh_loc h) kept).
    - by rewrite Hsame.
    - unfold read_prop, h2. by rewrite lookup_alloc_new.
    - done.
    - done. }
  assert (run = Outcome (Normal (VRef (fresh_loc h), VRef (fresh_loc h2)))
                       (<[fresh_loc h2 := OArray kept]> h2) []) as Hrun.
  { unfold run.
    eapply bind_quiet;
      [apply (getVisibleTodos_readable h state l elems Htodos Hl Helems) |].
    eapply bind_quiet; [reflexivity |].
    eapply bind_quiet; [exact Hagain | reflexivity]. }
  exists (fresh_loc h), (fresh_loc h2). rewrite Hrun. cbn [result final].
  split; [done |].
  split; [apply not_eq_sym; by apply (fresh_loc_ne h2 _ _ Hr2) |].
  split; [by apply lookup_alloc_old | apply lookup_alloc_new].
Qed.

Lemma getVisibleTodos_idempotent_witness :
  let run := (visible <- getVisibleTodos (VRef 7%positive) ;;
              state' <- alloc (OObject [("todos", visible)]) ;;
              again <- getVisibleTodos state' ;;
              ret (visible, again)) sample_heap in
  let kept := List.filter (completed_falsy sample_heap) [VRef 2%positive; VRef 3%positive] in
  exists r1 r2,
    result run = Normal (VRef r1, VRef r2) /\
    r1 <> r2 /\
    final run !! r1 = Some (OArray kept) /\
    final run !! r2 = Some (OArray kept).
Proof.
  apply (getVisibleTodos_idempotent sample_heap (VRef 7%positive) 6%positive
           [VRef 2%positive; VRef 3%positive]).
  - vm_compute; reflexivity.
  - vm_compute; reflexivity.
  - repeat constructor.
    + exists (VBool true). vm_compute; reflexivity.
    + exists (VBool false). vm_compute; reflexivity.
Defined.

Lemma getVisibleTodos_two_heaps_witness :
  (exists e, result (getVisibleTodos (VRef 7%positive) sample_heap) = Throw e
             /\ result (getVisibleTodos (VRef 4%positive) other_heap) = Throw e)
  \/ (exists r1 r2 kept,
        result (getVisibleTodos (VRef 7%positive) sample_heap) = Normal (VRef r1)
        /\ result (getVisibleTodos (VRef 4%positive) other_heap) = Normal (VRef r2)
        /\ final (getVisibleTodos (VRef 7%positive) sample_heap) !! r1 = Some (OArray kept)
        /\ final (getVisibleTodos (VRef 4%positive) other_heap) !! r2 = Some (OArray kept)).
Proof.
  apply (getVisibleTodos_two_heaps sample_heap other_heap (VRef 7%positive)
           (VRef 4%positive) 6%positive 1%positive [VRef 2%positive; VRef 3%positive]).
  - vm_compute; reflexivity.
  - vm_compute; reflexivity.
  - vm_compute; reflexivity.
  - vm_compute; reflexivity.
  - repeat constructor; vm_compute; reflexivity.
Defined.

(** ** Connecting components *)

(** X11: [mapStateToProps] hands the component the todos of the state and
    nothing else.  Where [state.todos] can be read, it returns a new object
    whose only own key is [todos]; its [todos] is the very value of
    [state.todos] (the same array, not a copy), so that [getTodos] on the
    props gives [state.todos] back; the state and every other object stay
    as they were and nothing is written. *)
Theorem mapStateToProps_only_todos (h : gmap loc object) (state todos : value) :
  read_prop h state "todos" = Normal todos ->
  let p := fresh_loc h in
  let h' := <[p := OObject [("todos", todos)]]> h in
  mapStateToProps state h = Outcome (Normal (VRef p)) h' [] /\
  h !! p = None /\
  h' !! p = Some (OObject [("todos", todos)]) /\
  keys_of h' (VRef p) = Normal ["todos"] /\
  result ((props <- mapStateToProps state ;; getTodos props) h) = Normal todos /\
  read_prop h' state "todos" = Normal todos /\
  (forall l o, h !! l = Some o -> h' !! l = Some o).
Proof.
  intros Hread p h'.
  assert (mapStateToProps state h = Outcome (Normal (VRef p)) h' []) as Hrun.
  { unfold mapStateToProps, bind, get_prop, reading, alloc.
    cbn [result final printed]. by rewrite Hread. }
  assert (h' !! p = Some (OObject [("todos", todos)])) as Hp
    by apply lookup_alloc_new.
  split; [done |]. split; [apply fresh_loc_lookup |]. split; [done |].
  split; [unfold keys_of; by rewrite Hp |].
  split.
  { unfold bind. rewrite Hrun. cbn [result final printed].
    unfold getTodos, get_prop, reading, read_prop. cbn [result]. by rewrite Hp. }
  split; [by apply read_prop_alloc |].
  intros l o Hl. by apply lookup_alloc_old.
Qed.

Lemma mapStateToProps_only_todos_witness :
  mapStateToProps (VRef 8%positive) sample_heap
    = Outcome (Normal (VRef 9%positive))
              (<[9%positive := OObject [("todos", VRef 6%positive)]]> sample_heap) [] /\
  keys_of (<[9%positive := OObject [("todos", VRef 6%positive)]]> sample_heap)
          (VRef 9%positive) = Normal ["todos"] /\
  keys_of sample_heap (VRef 8%positive) = Normal ["todos"; "filter"].
Proof.
  destruct (mapStateToProps_only_todos sample_heap (VRef 8%positive) (VRef 6%positive))
    as (Hrun & _ & _ & Hkeys & _).
  - vm_compute; reflexivity.
  - split; [exact Hrun |]. split; [exact Hkeys | vm_compute; reflexivity].
Defined.

(** X12: on [undefined] or [null] for a state (the store not yet there),
    [mapStateToProps] throws a [TypeError], as [state.todos] cannot be
    read; it creates no object and writes nothing. *)
Theorem mapStateToProps_no_state (h : gmap loc object) (state : value) :
  state = VUndefined \/ state = VNull ->
  mapStateToProps state h = Outcome (Throw TypeError) h [].
Proof. by intros [-> | ->]. Qed.

Lemma mapStateToProps_no_state_witness :
  mapStateToProps VUndefined sample_heap = Outcome (Throw TypeError) sample_heap [].
Proof. apply (mapStateToProps_no_state sample_heap VUndefined). left; reflexivity. Defined.

(** X13: the selector sees through [mapStateToProps]: called on the props
    that [mapStateToProps] makes of a state, [getVisibleTodos] returns an
    array with the elements it returns on the state itself, the todos of
    the state whose [completed] field is falsy, and leaves the todos of the
    state as they were. *)
Theorem getVisibleTodos_of_props (h : gmap loc object) (state : value) (l : loc)
    (elems : list value) :
  read_prop h state "todos" = Normal (VRef l) ->
  h !! l = Some (OArray elems) ->
  Forall (has_completed h) elems ->
  let direct := getVisibleTodos state h in
  let via := (props <- mapStateToProps state ;; getVisibleTodos props) h in
  let kept := List.filter (completed_falsy h) elems in
  exists r r',
    result direct = Normal (VRef r) /\ final direct !! r = Some (OArray kept) /\
    result via = Normal (VRef r') /\ final via !! r' = Some (OArray kept) /\
    final via !! l = Some (OArray elems).
Proof.
  intros Htodos Hl Helems direct via kept.
  set (h1 := <[fresh_loc h := OObject [("todos", VRef l)]]> h).
  assert (h1 !! l = Some (OArray elems)) as Hl1 by (by apply lookup_alloc_old).
  assert (getVisibleTodos (VRef (fresh_loc h)) h1
          = Outcome (Normal (VRef (fresh_loc h1)))
                    (<[fresh_loc h1 := OArray kept]> h1) []) as Hvia.
  { rewrite (getVisibleTodos_readable h1 (VRef (fresh_loc h)) l elems).
    - unfold h1. by rewrite filter_completed_falsy_alloc.
    - unfold read_prop, h1. by rewrite lookup_alloc_new.
    - done.
    - eapply Forall_impl; [exact Helems |]. intros x. apply has_completed_alloc. }
  exists (fresh_loc h), (fresh_loc h1).
  unfold direct. rewrite (getVisibleTodos_readable h state l elems Htodos Hl Helems).
  cbn [result final]. fold kept.
  split; [done |]. split; [apply lookup_alloc_new |].
  assert (via = Outcome (Normal (VRef (fresh_loc h1)))
                       (<[fresh_loc h1 := OArray kept]> h1) []) as Hrun.
  { unfold via. eapply bind_quiet; [| exact Hvia].
    unfold mapStateToProps, bind, get_prop, reading, alloc.
    cbn [result final printed]. by rewrite Htodos. }
  rewrite Hrun. cbn [result final].
  split; [done |]. split; [apply lookup_alloc_new | by apply lookup_alloc_old].
Qed.

Lemma getVisibleTodos_of_props_witness :
  let direct := getVisibleTodos (VRef 7%positive) sample_heap in
  let via := (props <- mapStateToProps (VRef 7%positive) ;; getVisibleTodos props)
               sample_heap in
  let kept := List.filter (completed_falsy sample_heap) [VRef 2%positive; VRef 3%positive] in
  exists r r',
    result direct = Normal (VRef r) /\ final direct !! r = Some (OArray kept) /\
    result via = Normal (VRef r') /\ final via !! r' = Some (OArray kept) /\
    final via !! 6%positive = Some (OArray [VRef 2%positive; VRef 3%positive]).
Proof.
  apply (getVisibleTodos_of_props sample_heap (VRef 7%positive) 6%positive
           [VRef 2%positive; VRef 3%positive]).
  - vm_compute; reflexivity.
  - vm_compute; reflexivity.
  - repeat constructor.
    + exists (VBool true). vm_compute; reflexivity.
    + exists (VBool false). vm_compute; reflexivity.
Defined.

(** ** Names the examples use and do not bind *)

(** X14: read as modules of their own, the seven examples that are
    modules bind every name they use but these: the globals [console] (in
    the logger), [test] and [expect] (in the test), and two names that
    nothing supplies, [MyComponent] in the connect example and [ADD_TODO]
    in the test, which imports [addTodo] alone.  In the Actions example
    [ADD_TODO] is bound: [addTodo] uses the constant declared before it. *)
Theorem examples_free_names :
  map free_names [actions_example; reducers_example; store_example;
                  middleware_example; connect_example; selectors_example;
                  testing_example]
    = [Some []; Some []; Some []; Some ["console"]; Some ["MyComponent"];
       Some []; Some ["test"; "ADD_TODO"; "expect"]].
Proof. by vm_compute. Qed.
